(** * xstate-tools: the language server's reconciliation core and the
      client's typegen rendering, embedded from the TypeScript sources.

    - [Js]      : the fragment of JavaScript semantics the code relies on
                  (thrown values, truthiness, insertion-ordered [Set],
                  [Array.prototype.join], an unanchored regular expression).
    - [Client]  : [src/client/src/extension.ts]
                  ([unique], [displayEventsCausing], [collectInternalEvents]).
    - [Server]  : [src/apps/extension/server/src/server.ts]
                  ([handleDocumentChange], [getTextEditsForImplementation],
                  the [getMachineAtIndex] and [applyMachineEdits] handlers),
                  over an interface [Env] of the libraries it imports.
    - [Fixture] : a small implementation of [Env], to run the server on
                  concrete documents.
    - [ClientProofs], [ServerProofs], [Scenarios] : the properties.

    Strings are [string]: a JavaScript string all of whose code units are
    below 256. *)

From Stdlib Require Import Ascii String.
From stdpp Require Import base option list strings gmap pretty sorting.

Local Open Scope string_scope.
#[local] Set Warnings "-clear-no-such-hyp".

(** ** JavaScript fragments *)
Module Js.

(** What a [throw] carries.  [isErrorWithMessage] (server [utils]) accepts the
    values that are objects with a string [message]. *)
Inductive thrown : Type :=
  | JsError (message : string)       (* new Error(message) *)
  | TypeError (message : string)     (* raised by the runtime *)
  | NotAnError.                      (* any thrown value without a message *)

Definition isErrorWithMessage (e : thrown) : bool :=
  match e with
  | JsError _ | TypeError _ => true
  | NotAnError => false
  end.

Definition message_of (e : thrown) : string :=
  match e with
  | JsError m | TypeError m => m
  | NotAnError => EmptyString
  end.

(** [isErrorWithMessage(e) ? e.message : 'Unknown error'] *)
Definition error_message (e : thrown) : string :=
  if isErrorWithMessage e then message_of e else "Unknown error".

(** A call either returns or throws. *)
Inductive outcome (A : Type) : Type :=
  | Returns (a : A)
  | Throws (e : thrown).
Arguments Returns {A} a.
Arguments Throws {A} e.

(** Truthiness of a string and of a possibly [undefined] string. *)
Definition truthy (s : string) : bool :=
  match s with
  | EmptyString => false
  | String _ _ => true
  end.

Definition truthy_opt (o : option string) : bool :=
  match o with
  | Some s => truthy s
  | None => false
  end.

(** [a || b] on strings. *)
Definition or_else (a b : string) : string := if truthy a then a else b.

(** [Array.prototype.join]. *)
Fixpoint join (sep : string) (l : list string) : string :=
  match l with
  | [] => EmptyString
  | [x] => x
  | x :: l' => x +:+ sep +:+ join sep l'
  end.

(** [String.prototype.startsWith]. *)
Definition startsWith (s p : string) : bool := String.prefix p s.

(** [String.prototype.slice(0, 1)] and [slice(1)]. *)
Definition slice_0_1 (s : string) : string :=
  match s with
  | EmptyString => EmptyString
  | String c _ => String c EmptyString
  end.

Definition slice_1 (s : string) : string :=
  match s with
  | EmptyString => EmptyString
  | String _ s' => s'
  end.

(** [String.prototype.slice(a, b)] and [slice(a)] for in-range offsets. *)
Definition slice (s : string) (a b : nat) : string := String.substring a (b - a) s.
Definition slice_from (s : string) (a : nat) : string :=
  String.substring a (String.length s - a) s.

(** *** [Set]: iteration follows insertion order *)
Section JsSet.
Context {A : Type} `{EqDecision A}.

(** The elements of a [Set], oldest insertion first. *)
Definition set_add (s : list A) (x : A) : list A :=
  if decide (x ∈ s) then s else s ++ [x].

(** [new Set(array)] followed by [Array.from]. *)
Definition set_from (array : list A) : list A := foldl set_add [] array.
End JsSet.

(** *** Regular expressions without anchors: literals and [.{0,}] *)
Inductive atom : Type :=
  | Lit (c : ascii)
  | DotStar.

Definition is_line_terminator (c : ascii) : bool :=
  bool_decide (c = "010"%char) || bool_decide (c = "013"%char).

(** Does the pattern match a prefix of [s]? *)
Fixpoint match_here (p : list atom) (s : string) {struct p} : bool :=
  match p with
  | [] => true
  | Lit c :: p' =>
      match s with
      | String d s' => bool_decide (c = d) && match_here p' s'
      | EmptyString => false
      end
  | DotStar :: p' =>
      (fix star (s : string) : bool :=
         match_here p' s ||
         match s with
         | String d s' => negb (is_line_terminator d) && star s'
         | EmptyString => false
         end) s
  end.

(** [RegExp.prototype.test] for a pattern without anchors or flags. *)
Fixpoint test (p : list atom) (s : string) : bool :=
  match_here p s ||
  match s with
  | String _ s' => test p s'
  | EmptyString => false
  end.

Fixpoint lits (s : string) : list atom :=
  match s with
  | EmptyString => []
  | String c s' => Lit c :: lits s'
  end.

(** [String.prototype.includes]. *)
Definition includes (s needle : string) : bool := test (lits needle) s.

End Js.

(** ** The client: rendering of the generated types ([extension.ts]) *)
Module Client.
Import Js.

(** One introspection line: a name and the events that can cause it. *)
Record Line : Type := mkLine { name : string; events : list string }.

(** [const unique = (array) => Array.from(new Set(array))] *)
Definition unique {A : Type} `{EqDecision A} (array : list A) : list A :=
  set_from array.

Definition quoted (s : string) : string := "'" +:+ s +:+ "'".


(** [/done\.invoke\..{0,}:invocation\[.{0,}\]/] *)
Definition inlineInvocationName : list atom :=
  lits "done.invoke." ++ [DotStar] ++ lits ":invocation[" ++ [DotStar] ++ lits "]".

Definition dquote : string := String "034"%char EmptyString.
Definition newline : string := String "010"%char EmptyString.

(** The four template literals of [collectInternalEvents]. *)
Definition inlineInvocationEntry (event : string) : string :=
  "'" +:+ event +:+ "': {" +:+ newline +:+
  "              // Tip appears here?" +:+ newline +:+
  "              type: '" +:+ event +:+ "'; data: unknown; __tip: " +:+ dquote +:+
  "Give this service a name and move it into the machine options to strongly type it" +:+
  dquote +:+ " };".

Definition doneInvokeEntry (event : string) : string :=
  "'" +:+ event +:+ "': { type: '" +:+ event +:+ "'; data: unknown; __tip: " +:+ dquote +:+
  "Provide an event of type { type: '" +:+ event +:+ "'; data: any } to strongly type this" +:+
  dquote +:+ " };".

Definition xstateEntry (event : string) : string :=
  "'" +:+ event +:+ "': { type: '" +:+ event +:+ "' };".

Definition errorPlatformEntry (event : string) : string :=
  "'" +:+ event +:+ "': { type: '" +:+ event +:+ "'; data: unknown; };".

(** The body of the innermost [forEach]: what one event adds to the set. *)
Definition collectEvent (internalEvents : list string) (event : string) : list string :=
  if test inlineInvocationName event then
    set_add internalEvents (inlineInvocationEntry event)
  else if startsWith event "done.invoke" then
    set_add internalEvents (doneInvokeEntry event)
  else if startsWith event "xstate." || bool_decide (event = EmptyString) then
    set_add internalEvents (xstateEntry event)
  else if startsWith event "error.platform" then
    set_add internalEvents (errorPlatformEntry event)
  else internalEvents.

(** [collectInternalEvents(lineArrays).internalEvents] *)
Definition collectInternalEvents (lineArrays : list (list Line)) : list string :=
  foldl (fun internalEvents lines =>
           foldl (fun internalEvents line =>
                    foldl collectEvent internalEvents (events line))
             internalEvents lines)
    [] lineArrays.

(** *** The same, in the words of the specification *)

(** Duplicates removed, keeping the first occurrence of each element. *)
Fixpoint first_seen {A : Type} `{EqDecision A} (l : list A) : list A :=
  match l with
  | [] => []
  | x :: l' => x :: filter (fun y => y ≠ x) (first_seen l')
  end.


(** The classes of internal events, in the order the code tries them. *)
Inductive event_class : Type :=
  | InlineInvocation     (* contains a match of the inline-invocation pattern *)
  | InvocationDone       (* any other name starting with done.invoke *)
  | FrameworkInternal    (* any other name starting with xstate., or the empty name *)
  | PlatformError        (* any other name starting with error.platform *)
  | Ordinary.            (* not collected *)

Definition classify (event : string) : event_class :=
  if test inlineInvocationName event then InlineInvocation
  else if startsWith event "done.invoke" then InvocationDone
  else if startsWith event "xstate." then FrameworkInternal
  else if bool_decide (event = EmptyString) then FrameworkInternal
  else if startsWith event "error.platform" then PlatformError
  else Ordinary.

Definition entry_of (event : string) : option string :=
  match classify event with
  | InlineInvocation => Some (inlineInvocationEntry event)
  | InvocationDone => Some (doneInvokeEntry event)
  | FrameworkInternal => Some (xstateEntry event)
  | PlatformError => Some (errorPlatformEntry event)
  | Ordinary => None
  end.

(** The fields of an internal-event entry, and how an entry is written. *)
Record shape : Type :=
  mkShape { lead : string; data_unknown : bool; tip : option string }.

Definition render (event : string) (s : shape) : string :=
  "'" +:+ event +:+ "': {" +:+ lead s +:+ "type: '" +:+ event +:+ "'" +:+
  (if data_unknown s then "; data: unknown" else EmptyString) +:+
  match tip s with
  | Some t => "; __tip: " +:+ dquote +:+ t +:+ dquote +:+ " }"
  | None => if data_unknown s then "; }" else " }"
  end +:+ ";".

Definition nameTheInvocation : string :=
  "Give this service a name and move it into the machine options to strongly type it".

Definition provideAnEvent (event : string) : string :=
  "Provide an event of type { type: '" +:+ event +:+ "'; data: any } to strongly type this".

Definition commentLead : string :=
  newline +:+ "              // Tip appears here?" +:+ newline +:+ "              ".

Definition shape_of (event : string) (c : event_class) : option shape :=
  match c with
  | InlineInvocation => Some (mkShape commentLead true (Some nameTheInvocation))
  | InvocationDone => Some (mkShape " " true (Some (provideAnEvent event)))
  | FrameworkInternal => Some (mkShape " " false None)
  | PlatformError => Some (mkShape " " true None)
  | Ordinary => None
  end.

(** Every event of every line of every array, in traversal order. *)
Definition all_events (lineArrays : list (list Line)) : list string :=
  concat (map (fun lines => concat (map events lines)) lineArrays).

(** What an entry says about the payload. *)
Definition has_unknown_data (entry : string) : bool := includes entry "data: unknown".
Definition has_hint (entry : string) : bool := includes entry "__tip".

End Client.

(** ** The language server ([server.ts]) *)
Module Server.
Import Js.

(** *** Data that [server.ts] builds or takes apart itself *)

(** LSP positions and ranges, and text edits. *)
Record Position : Type := mkPosition { line : nat; character : nat }.
Record Range : Type := mkRange { start : Position; end_ : Position }.
Record TextEdit : Type := mkTextEdit { range : Range; newText : string }.

(** A point of the extractor's own ranges (line, column, offset). *)
Record TextPoint : Type := mkTextPoint { tp_line : nat; tp_column : nat; index : nat }.

(** What [machineResult.modify(edits)] returns. *)
Record Modified : Type :=
  mkModified { modified_range : TextPoint * TextPoint; modified_newText : string }.

Record TextDocument : Type := mkTextDocument { uri : string; getText : string }.

Inductive toConfigOptions : Type :=
  | plainConfig
  | anonymizeInlineImplementations
  | hashInlineImplementations.

(** The three option categories a name can be wired into. *)
Inductive category : Type := services | actions | guards.

Definition category_name (type : category) : string :=
  match type with
  | services => "services"
  | actions => "actions"
  | guards => "guards"
  end.

(** The parsed call [createMachine(definition, options)].  [Node] is the
    parser's AST node; its [loc] may be absent. *)
Section CallResult.
Context {Node : Type}.

Record Property : Type := mkProperty { key : string }.

Record ObjectResult : Type :=
  mkObjectResult { object_node : Node; properties : list Property }.

Record OptionsResult : Type :=
  mkOptionsResult {
    options_node : Node;
    options_services : option ObjectResult;
    options_actions : option ObjectResult;
    options_guards : option ObjectResult }.

Record DefinitionResult : Type := mkDefinitionResult { definition_node : Node }.

Record MachineCallResult : Type :=
  mkMachineCallResult {
    definition : option DefinitionResult;
    options : option OptionsResult }.

(** [options[type]] *)
Definition options_at (o : OptionsResult) (type : category) : option ObjectResult :=
  match type with
  | services => options_services o
  | actions => options_actions o
  | guards => options_guards o
  end.
End CallResult.
Arguments Property : clear implicits.
Arguments ObjectResult : clear implicits.
Arguments OptionsResult : clear implicits.
Arguments DefinitionResult : clear implicits.
Arguments MachineCallResult : clear implicits.

(** *** The collaborators [server.ts] imports

    The extractor, the typegen library, the diagnostics and the settings are
    not part of [server.ts]; the server is embedded over any implementation
    of them.  A collaborator that can throw (or a promise that can reject)
    returns an [outcome]; the accessors of a machine result ([toConfig],
    [getLayoutComment], [getAllConds], [machineCallResult]) are total.
    [introspect m] stands for
    [introspectMachine(createIntrospectableMachine(m))], and
    [isTypedMachineResult] is a type guard: it rejects [undefined].
    [deepEqual] is equality of the modelled values.  A machine index is a
    natural number, as the code lenses send it. *)
Class Env : Type := {
  (* types *)
  MachineExtractResult : Type;
  FileExtractResult : Type;
  ParsedFile : Type;
  MachineNode : Type;
  Node : Type;
  SourceLocation : Type;
  Config : Type;
  TsTypesValue : Type;
  TypegenBody : Type;
  Implementations : Type;
  GlobalSettings : Type;
  Diagnostic : Type;
  MachineEdit : Type;
  (* fast-deep-equal on the values it is applied to *)
  Config_eq_dec : EqDecision Config;
  TsTypesValue_eq_dec : EqDecision TsTypesValue;
  TypegenBody_eq_dec : EqDecision TypegenBody;
  (* @xstate/machine-extractor *)
  extractMachinesFromFile : string -> outcome (option FileExtractResult);
  getMachineNodesFromFile : string -> outcome (ParsedFile * list MachineNode);
  getMachineExtractResult :
    ParsedFile -> string -> option MachineNode -> outcome (option MachineExtractResult);
  machineCallResult : MachineExtractResult -> MachineCallResult Node;
  toConfig : MachineExtractResult -> toConfigOptions -> option Config;
  getLayoutComment : MachineExtractResult -> option string;
  getAllConds_named : MachineExtractResult -> list string;
  modify : MachineExtractResult -> list MachineEdit -> outcome Modified;
  loc : Node -> option SourceLocation;
  (* @xstate/tools-shared *)
  filterOutIgnoredMachines : FileExtractResult -> list (option MachineExtractResult);
  getTypegenData_data : string -> nat -> MachineExtractResult -> outcome (TsTypesValue * TypegenBody);
  tsTypesValue : TypegenBody -> TsTypesValue;
  introspect : option MachineExtractResult -> outcome unit;
  getInlineImplementations : MachineExtractResult -> string -> Implementations;
  getRangeFromSourceLocation : SourceLocation -> Range;
  getRawTextFromNode : string -> Node -> string;
  (* ./utils, ./getDiagnostics, vscode-uri, the client's configuration *)
  isTypedMachineResult : MachineExtractResult -> bool;
  getDiagnostics :
    list MachineExtractResult -> TextDocument -> GlobalSettings -> outcome (list Diagnostic);
  getDocumentSettings : string -> outcome GlobalSettings;
  basename : string -> string;
  (* the JavaScript engine: the text of its [TypeError] when a property is
     destructured out of [undefined]; the wording belongs to the engine and
     to the expression as the build emits it *)
  destructuringMessage : string -> string
}.

#[global] Existing Instance Config_eq_dec.
#[global] Existing Instance TsTypesValue_eq_dec.
#[global] Existing Instance TypegenBody_eq_dec.

Section Server.
Context `{Env}.

(** [TypegenData]: the value recorded in source at the [tsTypes] site and
    the freshly computed data. *)
Record TypegenData : Type :=
  mkTypegenData { typesNode_value : TsTypesValue; data : TypegenBody }.

Definition getTypegenData (relativePath : string) (machineIndex : nat)
    (machineResult : MachineExtractResult) : outcome TypegenData :=
  match getTypegenData_data relativePath machineIndex machineResult with
  | Returns (v, d) => Returns (mkTypegenData v d)
  | Throws e => Throws e
  end.

Record ExtractionResult : Type :=
  mkExtractionResult {
    machineResult : option MachineExtractResult;
    types : option TypegenData;
    configError : option string }.

Record CachedDocument : Type :=
  mkCachedDocument {
    documentText : string;
    extractionResults : list ExtractionResult }.

Record DisplayedMachine : Type :=
  mkDisplayedMachine { displayed_uri : string; machineIndex : nat }.

(** What the connection carries to the client. *)
Record MachinePayload : Type :=
  mkMachinePayload {
    payload_config : option Config;
    layoutString : option string;
    implementations : Implementations;
    namedGuards : list string }.

Inductive message : Type :=
  | extractionError (error : option string)
  | displayedMachineUpdated (payload : MachinePayload)
  | typesUpdated (uri : string) (types : list TypegenData)
  | sendDiagnostics (uri : string) (diagnostics : list Diagnostic).

(** The module-level state and everything sent so far, oldest first. *)
Record World : Type :=
  mkWorld {
    documentsCache : gmap string CachedDocument;
    displayedMachine : option DisplayedMachine;
    sent : list message }.

(** *** Statements: state, output and exceptions *)
Definition io (A : Type) : Type := World -> outcome A * World.

Definition ret {A} (a : A) : io A := fun w => (Returns a, w).
Definition throw {A} (e : thrown) : io A := fun w => (Throws e, w).
Definition bind {A B} (m : io A) (k : A -> io B) : io B :=
  fun w =>
    match m w with
    | (Returns a, w') => k a w'
    | (Throws e, w') => (Throws e, w')
    end.
#[global] Instance io_ret : MRet io := @ret.
#[global] Instance io_bind : MBind io := fun A B k m => bind m k.
Definition call {A} (o : outcome A) : io A := fun w => (o, w).
Definition try_catch {A} (body : io A) (handler : thrown -> io A) : io A :=
  fun w =>
    match body w with
    | (Returns a, w') => (Returns a, w')
    | (Throws e, w') => handler e w'
    end.

Definition send (m : message) : io unit :=
  fun w => (Returns tt, mkWorld (documentsCache w) (displayedMachine w) (sent w ++ [m])).
Definition documentsCache_set (uri : string) (d : CachedDocument) : io unit :=
  fun w => (Returns tt, mkWorld (<[uri := d]> (documentsCache w)) (displayedMachine w) (sent w)).
Definition get_displayedMachine : io (option DisplayedMachine) :=
  fun w => (Returns (displayedMachine w), w).
Definition documentsCache_get (uri : string) : io (option CachedDocument) :=
  fun w => (Returns (documentsCache w !! uri), w).

(** The runtime's complaints about [undefined]: both are [TypeError]s.
    Reading a property has V8's wording; the text for a destructuring names
    the expression destructured and is the engine's, [destructuringMessage]. *)
Definition cannotRead (property : string) : thrown :=
  TypeError ("Cannot read properties of undefined (reading '" +:+ property +:+ "')").
Definition cannotDestructure (property : string) : thrown :=
  TypeError (destructuringMessage property).

(** Using [array[i]] where an object is needed: the runtime throws when
    the element is [undefined]. *)
Definition element {A} (array : list A) (i : nat) (complaint : thrown) : io A :=
  match array !! i with
  | Some a => mret a
  | None => throw complaint
  end.

(** Calling a method of a possibly [undefined] value. *)
Definition defined {A} (o : option A) (method : string) : io A :=
  match o with
  | Some a => mret a
  | None => throw (cannotRead method)
  end.

(** *** [handleDocumentChange]

    One call is one reconciliation pass, run to its end: the single [await]
    (the settings) is the call of [getDocumentSettings], and no other
    handler runs in between. *)

(** [areTypesWritable] *)
Definition areTypesWritable (typegenData : TypegenData) : bool :=
  bool_decide (typesNode_value typegenData = tsTypesValue (data typegenData)).

(** The [try] block of the callback of [machineResults.map]. *)
Definition analyse (uri : string) (index : nat)
    (machineResult : option MachineExtractResult) : outcome ExtractionResult :=
  match machineResult with
  | Some typed =>
      if isTypedMachineResult typed then
        match getTypegenData (basename uri) index typed with
        | Returns t => Returns (mkExtractionResult machineResult (Some t) None)
        | Throws e => Throws e
        end
      else
        match introspect machineResult with
        | Returns _ => Returns (mkExtractionResult machineResult None None)
        | Throws e => Throws e
        end
  | None =>
      match introspect machineResult with
      | Returns _ => Returns (mkExtractionResult machineResult None None)
      | Throws e => Throws e
      end
  end.

(** The callback itself: the [try] and its [catch]. *)
Definition extractionResult (uri : string) (index : nat)
    (machineResult : option MachineExtractResult) : ExtractionResult :=
  match analyse uri index machineResult with
  | Returns r => r
  | Throws e => mkExtractionResult machineResult None (Some (error_message e))
  end.

(** [.map((r) => r.types).filter(isTypegenData)] *)
Definition typegenDataOf (results : list ExtractionResult) : list TypegenData :=
  omap types results.

(** The block guarded by [displayedMachine?.uri === textDocument.uri];
    [false] is its early [return]. *)
Definition displayedStep (text : string)
    (previouslyCachedDocument : option CachedDocument)
    (extractionResults : list ExtractionResult) (machineIndex : nat) : io bool :=
  current ← element extractionResults machineIndex (cannotDestructure "configError");
  if truthy_opt (configError current) then
    send (extractionError (configError current));;
    mret false
  else
    previous ←
      match previouslyCachedDocument with
      | None => mret None
      | Some cached =>
          r ← element (Server.extractionResults cached) machineIndex (cannotRead "configError");
          mret (Some r)
      end;
    (if truthy_opt (previous ≫= configError)
     then send (extractionError None) else mret tt);;
    machine ← defined (machineResult current) "toConfig";
    let updatedConfig := toConfig machine plainConfig in
    let previousMachineResult := previous ≫= machineResult in
    match updatedConfig, previousMachineResult with
    | Some _, Some previousMachine =>
        if negb (bool_decide
                   (toConfig previousMachine anonymizeInlineImplementations =
                    toConfig machine anonymizeInlineImplementations))
        then
          send (displayedMachineUpdated
                  (mkMachinePayload updatedConfig (getLayoutComment machine)
                     (getInlineImplementations machine text)
                     (getAllConds_named machine)));;
          mret true
        else mret true
    | _, _ => mret true
    end.

(** The end of the [try] block: diagnostics, then the typegen check. *)
Definition publish (textDocument : TextDocument) (settings : GlobalSettings)
    (machineResults : list (option MachineExtractResult)) (types : list TypegenData)
    (previouslyCachedDocument : option CachedDocument) : io unit :=
  diagnostics ← call (getDiagnostics (omap id machineResults) textDocument settings);
  send (sendDiagnostics (uri textDocument) diagnostics);;
  let writableTypes := filter areTypesWritable types in
  if negb (bool_decide (length writableTypes = 0)) &&
     negb (bool_decide
             ((fun cached =>
                 map data
                   (filter areTypesWritable
                      (typegenDataOf (extractionResults cached))))
                <$> previouslyCachedDocument
              = Some (map data writableTypes)))
  then send (typesUpdated (uri textDocument) types)
  else mret tt.

(** The body of the [try] block. *)
Definition reconcile (textDocument : TextDocument)
    (previouslyCachedDocument : option CachedDocument) : io unit :=
  let text := getText textDocument in
  extracted ← call (extractMachinesFromFile text);
  match extracted with
  | None => mret tt
  | Some extracted =>
      settings ← call (getDocumentSettings (uri textDocument));
      let machineResults := filterOutIgnoredMachines extracted in
      let extractionResults := imap (extractionResult (uri textDocument)) machineResults in
      let types := typegenDataOf extractionResults in
      documentsCache_set (uri textDocument) (mkCachedDocument text extractionResults);;
      displayed ← get_displayedMachine;
      proceed ←
        match displayed with
        | Some d =>
            if bool_decide (displayed_uri d = uri textDocument)
            then displayedStep text previouslyCachedDocument extractionResults (machineIndex d)
            else mret true
        | None => mret true
        end;
      if proceed : bool
      then publish textDocument settings machineResults types previouslyCachedDocument
      else mret tt
  end.

(** The [catch] block. *)
Definition recover (textDocument : TextDocument) (e : thrown) : io unit :=
  displayed ← get_displayedMachine;
  (match displayed with
   | Some d =>
       if bool_decide (displayed_uri d = uri textDocument)
       then send (extractionError (Some (error_message e)))
       else mret tt
   | None => mret tt
   end);;
  send (sendDiagnostics (uri textDocument) []).

Definition handleDocumentChange (textDocument : TextDocument) : io unit :=
  previouslyCachedDocument ← documentsCache_get (uri textDocument);
  try_catch (reconcile textDocument previouslyCachedDocument) (recover textDocument).

(** *** Requests *)

(** [connection.documents.onDidClose] (the settings cache is not modelled). *)
Definition onDidClose (document : TextDocument) : io unit :=
  fun w =>
    (Returns tt,
     mkWorld (delete (uri document) (documentsCache w)) (displayedMachine w) (sent w)).

Definition setDisplayedMachine (uri : string) (machineIndex : nat) : io unit :=
  fun w =>
    (Returns tt,
     mkWorld (documentsCache w) (Some (mkDisplayedMachine uri machineIndex)) (sent w)).

Definition clearDisplayedMachine : io unit :=
  fun w => (Returns tt, mkWorld (documentsCache w) None (sent w)).

Definition noMachines : string := "There were no machines recognized in this document".

Definition machineNotFound (machineIndex count : nat) : string :=
  "Machine " +:+ pretty machineIndex +:+
  " was not found. This document has only " +:+ pretty count +:+ " machine(s)".

(** The [getMachineAtIndex] handler. *)
Definition getMachineAtIndex (uri : string) (machineIndex : nat) : io MachinePayload :=
  cachedDocument ← documentsCache_get uri;
  match cachedDocument with
  | None => throw (JsError noMachines)
  | Some cachedDocument =>
      if bool_decide (length (extractionResults cachedDocument) = 0)
      then throw (JsError noMachines)
      else
        slot ← element (extractionResults cachedDocument) machineIndex (cannotRead "machineResult");
        match machineResult slot with
        | None =>
            throw (JsError (machineNotFound machineIndex
                              (length (extractionResults cachedDocument))))
        | Some machine =>
            mret (mkMachinePayload
                    (toConfig machine hashInlineImplementations)
                    (getLayoutComment machine)
                    (getInlineImplementations machine (documentText cachedDocument))
                    (set_from (getAllConds_named machine)))
        end
  end.

Record ReplaceEdit : Type :=
  mkReplaceEdit {
    replace_uri : string;
    replace_range : TextPoint * TextPoint;
    replace_newText : string }.

(** [cachedDocument.extractionResults[i].machineResult = m]: the cached
    object is updated in place, its other fields stay as they are. *)
Definition assign_machineResult (uri : string) (i : nat)
    (m : option MachineExtractResult) : io unit :=
  fun w =>
    (Returns tt,
     mkWorld
       (alter (fun cached =>
                 mkCachedDocument (documentText cached)
                   (alter (fun slot => mkExtractionResult m (types slot) (configError slot))
                      i (extractionResults cached)))
          uri (documentsCache w))
       (displayedMachine w) (sent w)).

(** The [applyMachineEdits] handler. *)
Definition applyMachineEdits (machineEdits : list MachineEdit) : io (list ReplaceEdit) :=
  displayed ← get_displayedMachine;
  match displayed with
  | None =>
      throw (JsError "`applyMachineEdits` can only be requested when there is a displayed machine")
  | Some d =>
      cached ← documentsCache_get (displayed_uri d);
      cachedDocument ← defined cached "extractionResults";
      slot ← element (extractionResults cachedDocument) (machineIndex d) (cannotRead "machineResult");
      machine ← defined (machineResult slot) "modify";
      modified ← call (modify machine machineEdits);
      let newDocumentText :=
        slice (documentText cachedDocument) 0 (index (modified_range modified).1) +:+
        modified_newText modified +:+
        slice_from (documentText cachedDocument) (index (modified_range modified).2) in
      parsed ← call (getMachineNodesFromFile newDocumentText);
      let '(file, machineNodes) := parsed in
      extractedAgain ←
        call (getMachineExtractResult file newDocumentText (machineNodes !! machineIndex d));
      assign_machineResult (displayed_uri d) (machineIndex d) extractedAgain;;
      mret [mkReplaceEdit (displayed_uri d) (modified_range modified)
              (modified_newText modified)]
  end.

(** *** [getTextEditsForImplementation] *)
Definition getTextEditsForImplementation (machine : MachineExtractResult)
    (type : category) (name : string) (text : string) : list TextEdit :=
  let machineDefinitionLoc :=
    definition (machineCallResult machine) ≫= (fun d => loc (definition_node d)) in
  match machineDefinitionLoc with
  | None => []
  | Some machineDefinitionLoc =>
      let machineOptionsLoc :=
        options (machineCallResult machine) ≫= (fun o => loc (options_node o)) in
      match machineOptionsLoc, options (machineCallResult machine) with
      | Some machineOptionsLoc, Some machineOptions =>
          match options_at machineOptions type ≫= (fun c => loc (object_node c)),
                options_at machineOptions type with
          | Some implementationsLoc, Some implementations =>
              let existingImplementation :=
                find (fun property => bool_decide (key property = name))
                  (properties implementations) in
              match existingImplementation with
              | Some _ => []
              | None =>
                  let rawText := getRawTextFromNode text (object_node implementations) in
                  let range := getRangeFromSourceLocation implementationsLoc in
                  [mkTextEdit range
                     (slice_0_1 rawText +:+ " '" +:+ name +:+ "': () => {}, " +:+
                      slice_1 rawText)]
              end
          | _, _ =>
              let rawText := getRawTextFromNode text (options_node machineOptions) in
              let range := getRangeFromSourceLocation machineOptionsLoc in
              [mkTextEdit range
                 (slice_0_1 rawText +:+ " " +:+ category_name type +:+ ": { '" +:+ name +:+
                  "': () => {} }, " +:+ slice_1 rawText)]
          end
      | _, _ =>
          let range := getRangeFromSourceLocation machineDefinitionLoc in
          [mkTextEdit (mkRange (end_ range) (end_ range))
             (", { " +:+ category_name type +:+ ": { '" +:+ name +:+ "': () => {} } }")]
      end
  end.

(** *** The same, in the words of the specification *)

(** The four-way decision of a name-addition edit as a tagged variant.
    A construct is found when the parser located it ([loc] present); the
    call is found when its machine definition is, and [call] is where that
    definition stands. *)
Inductive implementation_status : Type :=
  | NoCall
  | NoOptions (call : SourceLocation)
  | NoCategory (optionsObject : Node) (at_ : SourceLocation)
  | NoName (categoryObject : Node) (at_ : SourceLocation)
  | NamePresent.

Definition status_of (machine : MachineExtractResult) (type : category)
    (name : string) : implementation_status :=
  match definition (machineCallResult machine) with
  | None => NoCall
  | Some d =>
      match loc (definition_node d) with
      | None => NoCall
      | Some callLoc =>
          match options (machineCallResult machine) with
          | None => NoOptions callLoc
          | Some o =>
              match loc (options_node o) with
              | None => NoOptions callLoc
              | Some optionsLoc =>
                  match options_at o type with
                  | None => NoCategory (options_node o) optionsLoc
                  | Some c =>
                      match loc (object_node c) with
                      | None => NoCategory (options_node o) optionsLoc
                      | Some categoryLoc =>
                          if decide (name ∈ map key (properties c))
                          then NamePresent
                          else NoName (object_node c) categoryLoc
                      end
                  end
              end
          end
      end
  end.





(** Applying text edits, as the editor does: each edit replaces its range
    by its new text.  [offsetAt] is the document's position-to-offset
    map; the edits are applied last first. *)
Definition applyEdit (offsetAt : string -> Position -> nat) (text : string)
    (e : TextEdit) : string :=
  slice text 0 (offsetAt text (start (range e))) +:+ newText e +:+
  slice_from text (offsetAt text (end_ (range e))).

Definition applyEdits (offsetAt : string -> Position -> nat) (text : string)
    (edits : list TextEdit) : string :=
  foldr (fun e text => applyEdit offsetAt text e) text edits.

(** Is a machine typed ([undefined] is not)? *)
Definition typed (machineResult : option MachineExtractResult) : bool :=
  match machineResult with
  | Some m => isTypedMachineResult m
  | None => false
  end.

(** The machines in sync: the data of the writable types of a batch. *)
Definition inSync (results : list ExtractionResult) : list TypegenBody :=
  map data (filter areTypesWritable (typegenDataOf results)).

(** Notifications about the displayed machine. *)
Definition about_displayed (m : message) : bool :=
  match m with
  | extractionError _ | displayedMachineUpdated _ => true
  | typesUpdated _ _ | sendDiagnostics _ _ => false
  end.

Definition is_diagnostics (uri : string) (m : message) : bool :=
  match m with
  | sendDiagnostics u _ => bool_decide (u = uri)
  | _ => false
  end.

Definition is_typesUpdated (m : message) : bool :=
  match m with
  | typesUpdated _ _ => true
  | _ => false
  end.

(** The displayed machine, when it belongs to [uri], resolves in the new
    batch and in the cached one, has a machine result and no config error. *)
Definition displayed_resolves (w : World) (uri : string)
    (results : list ExtractionResult) : bool :=
  match displayedMachine w with
  | Some d =>
      if bool_decide (displayed_uri d = uri) then
        match results !! machineIndex d with
        | Some current =>
            negb (truthy_opt (configError current)) &&
            bool_decide (is_Some (machineResult current)) &&
            match documentsCache w !! uri with
            | Some cached =>
                bool_decide (machineIndex d < length (extractionResults cached))
            | None => true
            end
        | None => false
        end
      else true
  | None => true
  end.

(** The batch a pass computes from what the extractor found. *)
Definition batch (textDocument : TextDocument) (extracted : FileExtractResult)
    : list ExtractionResult :=
  imap (extractionResult (uri textDocument)) (filterOutIgnoredMachines extracted).

(** The text [applyMachineEdits] re-extracts from. *)
Definition editedText (text : string) (modified : Modified) : string :=
  slice text 0 (index (modified_range modified).1) +:+
  modified_newText modified +:+
  slice_from text (index (modified_range modified).2).

(** Apart from the one [documentsCache.set], every statement of a pass
    leaves the cache and the displayed machine alone and adds to what was
    sent. *)
Definition only_sends {A} (m : io A) : Prop :=
  ∀ w, documentsCache (m w).2 = documentsCache w
       ∧ displayedMachine (m w).2 = displayedMachine w
       ∧ ∃ out, sent (m w).2 = (sent w ++ out)%list.

(** What a statement sent: the messages added to the world it ran in. *)
Definition emitted {A} (m : io A) (w : World) : list message :=
  drop (length (sent w)) (sent (m w).2).
End Server.

End Server.

(** ** A small implementation of the collaborators, for concrete runs

    A document is a sequence of one-character machines: [u] an untyped
    machine, [x] an untyped machine whose config is invalid, [t] a typed
    machine whose recorded types are up to date, [s] a typed machine whose
    recorded types are stale, [T] a typed machine whose typegen throws,
    [i] an ignored machine.  The empty text has no machine at all and a
    text with [!] does not parse. *)
Module Fixture.
Import Js Server.

Record machine : Type :=
  mkMachine { tag : ascii; offset : nat; call : MachineCallResult (nat * nat) }.

Definition noCall : MachineCallResult (nat * nat) := mkMachineCallResult None None.

Fixpoint machinesFrom (offset : nat) (text : string) : list machine :=
  match text with
  | EmptyString => []
  | String c text' => mkMachine c offset noCall :: machinesFrom (S offset) text'
  end.

Definition parses (text : string) : bool := negb (includes text "!").

Definition point (i : nat) : TextPoint := mkTextPoint 0 i i.

#[global, refine] Instance toy : Env := {|
  MachineExtractResult := machine;
  FileExtractResult := list machine;
  ParsedFile := string;
  MachineNode := machine;
  Node := nat * nat;
  SourceLocation := nat * nat;
  Config := ascii;
  TsTypesValue := nat;
  TypegenBody := nat;
  Implementations := string;
  GlobalSettings := unit;
  Diagnostic := ascii;
  MachineEdit := string;
  extractMachinesFromFile text :=
    if negb (parses text) then Throws (JsError "Unexpected token")
    else if bool_decide (text = EmptyString) then Returns None
    else Returns (Some (machinesFrom 0 text));
  getMachineNodesFromFile text :=
    if parses text then Returns (text, machinesFrom 0 text)
    else Throws (JsError "Unexpected token");
  getMachineExtractResult _ _ node := Returns node;
  machineCallResult := call;
  toConfig m _ := Some (tag m);
  getLayoutComment _ := None;
  getAllConds_named _ := [];
  modify m edits :=
    match edits with
    | [] => Throws (JsError "nothing to modify")
    | e :: _ => Returns (mkModified (point (offset m), point (S (offset m))) e)
    end;
  loc n := Some n;
  filterOutIgnoredMachines ms :=
    map Some (filter (fun m => tag m ≠ "i"%char) ms);
  getTypegenData_data _ index m :=
    if bool_decide (tag m = "T"%char) then Throws (JsError "Invalid typed machine")
    else if bool_decide (tag m = "s"%char) then Returns (S index, index)
    else Returns (index, index);
  tsTypesValue d := d;
  introspect m :=
    match m with
    | Some m =>
        if bool_decide (tag m = "x"%char) then Throws (JsError "Invalid config")
        else Returns tt
    | None => Throws (TypeError "Cannot read properties of undefined (reading 'machineCallResult')")
    end;
  getInlineImplementations _ text := text;
  getRangeFromSourceLocation l := mkRange (mkPosition 0 l.1) (mkPosition 0 l.2);
  getRawTextFromNode text n := slice text n.1 n.2;
  isTypedMachineResult m :=
    bool_decide (tag m = "t"%char) || bool_decide (tag m = "s"%char)
    || bool_decide (tag m = "T"%char);
  getDiagnostics ms _ _ := Returns (map tag ms);
  getDocumentSettings _ := Returns tt;
  basename u := u;
  destructuringMessage property :=
    "Cannot destructure property '" +:+ property +:+
    "' of 'extractionResults[displayedMachine.machineIndex]' as it is undefined."
|}.
Proof. all: apply _. Defined.

Definition emptyWorld : World := mkWorld ∅ None [].

(** Run a sequence of statements from a world, keeping the last outcome. *)
Definition run {A} (m : io A) (w : World) : outcome A * World := m w.
Definition after {A} (m : io A) (w : World) : World := (m w).2.

(** *** Worlds and machines for the concrete runs *)

Definition doc (uri text : string) : TextDocument := mkTextDocument uri text.

(** [a.ts] was opened with one untyped machine. *)
Definition opened : World := after (handleDocumentChange (doc "a.ts" "u")) emptyWorld.

(** ... and its first machine is shown in the visual editor. *)
Definition shown : World := after (setDisplayedMachine "a.ts" 0) opened.

(** [a.ts] was opened with one typed machine whose types are in sync. *)
Definition typedOpened : World := after (handleDocumentChange (doc "a.ts" "t")) emptyWorld.

(** The batch cached for a document. *)
Definition cachedBatch (w : World) (uri : string) : list ExtractionResult :=
  match documentsCache w !! uri with
  | Some cached => extractionResults cached
  | None => []
  end.

(** Two machines were opened, the second is displayed, then one is deleted. *)
Definition shownSecond : World :=
  after (setDisplayedMachine "a.ts" 1)
    (after (handleDocumentChange (doc "a.ts" "uu")) emptyWorld).

(** A machine without the action [go] in its options, and the machine a
    parser finds in the text once [go] has been added. *)
Definition sourceText : string := "createMachine({}, { actions: {} })".

Definition callOf (actionsEnd optionsEnd : nat) (names : list string)
    : MachineCallResult (nat * nat) :=
  mkMachineCallResult
    (Some (mkDefinitionResult (14, 16)))
    (Some (mkOptionsResult (18, optionsEnd) None
             (Some (mkObjectResult (29, actionsEnd) (map mkProperty names))) None)).

Definition before : machine := mkMachine "u" 0 (callOf 31 33 []).
Definition afterwards : machine := mkMachine "u" 0 (callOf 48 50 ["go"]).

Definition offsetAt (text : string) (p : Position) : nat := character p.

End Fixture.

(** ** The client: helpers of [extension.ts] and [initiateTypegen.ts] *)
Module ClientHelpers.
Import Js Client.

(** [String.prototype.lastIndexOf] for a one-character needle; -1 when the
    character does not occur. *)
Fixpoint lastIndexOf (s : string) (c : ascii) : Z :=
  match s with
  | EmptyString => (-1)%Z
  | String d s' =>
      let i := lastIndexOf s' c in
      if (0 <=? i)%Z then (i + 1)%Z
      else if bool_decide (d = c) then 0%Z else (-1)%Z
  end.

(** [String.prototype.substr(0, length)]: a negative length takes nothing. *)
Definition substr_0 (s : string) (length : Z) : string :=
  String.substring 0 (Z.to_nat length) s.

(** [removeExtension]: [input.substr(0, input.lastIndexOf("."))] *)
Definition removeExtension (input : string) : string :=
  substr_0 input (lastIndexOf input "."%char).

(** [resolveUriToFilePrefix] *)
Definition resolveUriToFilePrefix (uri : string) : string :=
  if negb (startsWith uri "file://") then "file://" +:+ uri else uri.

(** The parser's [Location]: lines count from 1, columns from 0. *)
Record Point : Type := mkPoint { point_line : Z; point_column : Z }.
Record Location : Type := mkLocation { loc_start : Point; loc_end : Point }.

(** [vscode.Position]: lines and characters count from 0. *)
Record Cursor : Type := mkCursor { cursor_line : Z; cursor_character : Z }.

(** [isCursorInPosition] of [extension.ts]; [None] is [undefined]. *)
Definition isCursorInPosition (nodeSourceLocation : option Location)
    (cursorPosition : Cursor) : option bool :=
  match nodeSourceLocation with
  | None => None
  | Some nodeSourceLocation =>
      let isOnSameLine :=
        (point_line (loc_start nodeSourceLocation) - 1 =? cursor_line cursorPosition)%Z in
      let isWithinChars :=
        (point_column (loc_start nodeSourceLocation) <=? cursor_character cursorPosition)%Z
        && (cursor_character cursorPosition <=? point_column (loc_end nodeSourceLocation))%Z in
      if isOnSameLine then Some isWithinChars
      else
        let isWithinLines :=
          (point_line (loc_start nodeSourceLocation) - 1 <=? cursor_line cursorPosition)%Z
          && (cursor_line cursorPosition <=? point_line (loc_end nodeSourceLocation))%Z in
        Some isWithinLines
  end.

(** Does the whole of [s] match [\.([j,t])sx?]?  The class holds [j], the
    comma and [t]. *)
Definition in_class (c : ascii) : bool :=
  bool_decide (c = "j"%char) || bool_decide (c = ","%char) || bool_decide (c = "t"%char).

Definition is_script_extension (s : string) : bool :=
  match s with
  | String dot (String c (String s1 rest)) =>
      bool_decide (dot = "."%char) && in_class c && bool_decide (s1 = "s"%char) &&
      match rest with
      | EmptyString => true
      | String x EmptyString => bool_decide (x = "x"%char)
      | _ => false
      end
  | _ => false
  end.

(** [uri.replace(/\.([j,t])sx?$/, ".typegen.ts")]: the first position from
    which the pattern matches up to the end of the string is replaced. *)
Fixpoint typegenUri (uri : string) : string :=
  if is_script_extension uri then ".typegen.ts"
  else
    match uri with
    | EmptyString => EmptyString
    | String c uri' => String c (typegenUri uri')
    end.

(** [String.prototype.slice(0, -n)] for [n >= 0]: [-0] is [0], so nothing is
    kept when [n] is [0]. *)
Definition slice_0_minus (s : string) (n : nat) : string :=
  match n with
  | 0 => EmptyString
  | S _ => String.substring 0 (String.length s - n) s
  end.

(** The path of the generated file in [createTypegenFile], given
    [UriUtils.extname(parsedUri)]. *)
Definition typegenPath (path extname : string) : string :=
  slice_0_minus path (String.length extname) +:+ ".typegen.ts".


(** [requiredActions] and its siblings in [getTypegenOutput]: the lines
    whose name is not among the names in the options. *)
Definition required (lines : list Line) (inOptions : list string) : string :=
  join " | "
    (map (fun line => quoted (name line))
       (filter (fun line => name line ∉ inOptions) lines)).

(** [`actions: ${requiredActions || "never"};`] *)
Definition missingImplementation (label required : string) : string :=
  label +:+ ": " +:+ or_else required "never" +:+ ";".

(** *** [modifyInvokesRecursively]

    A state config as far as the function looks at it: its [invoke] and its
    child states, in the order of [Object.values]. *)
Inductive srcValue : Type :=
  | SrcString (s : string)
  | SrcFunction.

Inductive invokeItem : Type :=
  | InvokeObject (src : option srcValue)
  | InvokeString (s : string).

Inductive invokeField : Type :=
  | NoInvoke
  | InvokeOne (item : invokeItem)
  | InvokeArray (items : list invokeItem).

#[local] Set Warnings "-register-all".
Inductive stateNode : Type :=
  | StateNode (invoke : invokeField) (states : list (string * stateNode)).

(** ["src" in invoke && invoke.src === "anonymous"], then the assignment;
    [in] throws on a string. *)
Definition cannotUseIn (s : string) : thrown :=
  TypeError ("Cannot use 'in' operator to search for 'src' in " +:+ s).

Definition modifyItem (invoke : invokeItem) : outcome invokeItem :=
  match invoke with
  | InvokeObject (Some (SrcString s)) =>
      if bool_decide (s = "anonymous") then Returns (InvokeObject (Some SrcFunction))
      else Returns invoke
  | InvokeObject _ => Returns invoke
  | InvokeString s => Throws (cannotUseIn s)
  end.

Fixpoint modifyItems (items : list invokeItem) : outcome (list invokeItem) :=
  match items with
  | [] => Returns []
  | invoke :: items' =>
      match modifyItem invoke with
      | Throws e => Throws e
      | Returns invoke' =>
          match modifyItems items' with
          | Throws e => Throws e
          | Returns items'' => Returns (invoke' :: items'')
          end
      end
  end.

Definition modifyInvoke (invoke : invokeField) : outcome invokeField :=
  match invoke with
  | InvokeArray items =>
      match modifyItems items with
      | Throws e => Throws e
      | Returns items' => Returns (InvokeArray items')
      end
  | InvokeOne (InvokeString EmptyString) => Returns invoke
  | InvokeOne item =>
      match modifyItem item with
      | Throws e => Throws e
      | Returns item' => Returns (InvokeOne item')
      end
  | NoInvoke => Returns invoke
  end.

Fixpoint modifyInvokesRecursively (state : stateNode) : outcome stateNode :=
  match state with
  | StateNode invoke states =>
      match modifyInvoke invoke with
      | Throws e => Throws e
      | Returns invoke' =>
          match
            (fix each (children : list (string * stateNode))
               : outcome (list (string * stateNode)) :=
               match children with
               | [] => Returns []
               | (k, child) :: children' =>
                   match modifyInvokesRecursively child with
                   | Throws e => Throws e
                   | Returns child' =>
                       match each children' with
                       | Throws e => Throws e
                       | Returns children'' => Returns ((k, child') :: children'')
                       end
                   end
               end) states
          with
          | Throws e => Throws e
          | Returns states' => Returns (StateNode invoke' states')
          end
      end
  end.

(** *** In the words of a reader *)

(** A position inside the node's range, both ends included (line numbers
    made to count from 0). *)
Definition contains (l : Location) (c : Cursor) : Prop :=
  ((point_line (loc_start l) - 1 < cursor_line c
    ∨ (point_line (loc_start l) - 1 = cursor_line c
       ∧ point_column (loc_start l) <= cursor_character c))
   ∧ (cursor_line c < point_line (loc_end l) - 1
      ∨ (cursor_line c = point_line (loc_end l) - 1
         ∧ cursor_character c <= point_column (loc_end l))))%Z.

(** The range is not empty backwards. *)
Definition well_formed (l : Location) : Prop :=
  (point_line (loc_start l) < point_line (loc_end l)
   ∨ (point_line (loc_start l) = point_line (loc_end l)
      ∧ point_column (loc_start l) <= point_column (loc_end l)))%Z.

(** No line terminator in [s]. *)
Fixpoint one_line (s : string) : bool :=
  match s with
  | EmptyString => true
  | String c s' => negb (is_line_terminator c) && one_line s'
  end.

(** Does [c] occur in [s]? *)
Fixpoint occurs (c : ascii) (s : string) : bool :=
  match s with
  | EmptyString => false
  | String d s' => bool_decide (d = c) || occurs c s'
  end.

(** An [invoke] whose source is still the string [anonymous]. *)
Definition anonymousItem (item : invokeItem) : bool :=
  match item with
  | InvokeObject (Some (SrcString s)) => bool_decide (s = "anonymous")
  | _ => false
  end.

Definition anonymousInvoke (invoke : invokeField) : bool :=
  match invoke with
  | NoInvoke => false
  | InvokeOne item => anonymousItem item
  | InvokeArray items => existsb anonymousItem items
  end.

Fixpoint hasAnonymous (state : stateNode) : bool :=
  match state with
  | StateNode invoke states =>
      anonymousInvoke invoke ||
      (fix any (children : list (string * stateNode)) : bool :=
         match children with
         | [] => false
         | (_, child) :: children' => hasAnonymous child || any children'
         end) states
  end.

(** What one call settles about its result. *)
Definition settled {A} (modify : A -> outcome A) (anonymous : A -> bool) (a a' : A) : Prop :=
  anonymous a' = false ∧ modify a' = Returns a' ∧ (anonymous a = false -> a' = a).

(** The loops over the child states, by name. *)
Definition eachChild : list (string * stateNode) -> outcome (list (string * stateNode)) :=
  fix each (children : list (string * stateNode)) :=
    match children with
    | [] => Returns []
    | (k, child) :: children' =>
        match modifyInvokesRecursively child with
        | Throws e => Throws e
        | Returns child' =>
            match each children' with
            | Throws e => Throws e
            | Returns children'' => Returns ((k, child') :: children'')
            end
        end
    end.

Definition anyChild : list (string * stateNode) -> bool :=
  fix any (children : list (string * stateNode)) :=
    match children with
    | [] => false
    | (_, child) :: children' => hasAnonymous child || any children'
    end.

(** A config with two anonymous invokes, before and after. *)
Definition sampleConfig : stateNode :=
  StateNode (InvokeOne (InvokeObject (Some (SrcString "anonymous"))))
    [("idle", StateNode NoInvoke []);
     ("loading",
      StateNode (InvokeArray [InvokeObject (Some (SrcString "fetchUser"));
                              InvokeObject (Some (SrcString "anonymous"));
                              InvokeObject None])
        [("retry", StateNode (InvokeOne (InvokeString EmptyString)) [])])].

Definition sampleConfigAfter : stateNode :=
  StateNode (InvokeOne (InvokeObject (Some SrcFunction)))
    [("idle", StateNode NoInvoke []);
     ("loading",
      StateNode (InvokeArray [InvokeObject (Some (SrcString "fetchUser"));
                              InvokeObject (Some SrcFunction);
                              InvokeObject None])
        [("retry", StateNode (InvokeOne (InvokeString EmptyString)) [])])].

End ClientHelpers.

(** ** The language server: the other requests of [server.ts] *)
Module ServerRequests.
Import Js Server.

(** *** The settings of the open documents

    [getDocumentSettings] and the handlers that empty its cache.  A promise
    is either resolved with the global settings or the answer to one
    [workspace/configuration] request; [requested] lists the requests made,
    oldest first. *)
Section Settings.
Context {GlobalSettings : Type}.

Inductive settingsPromise : Type :=
  | resolved (settings : GlobalSettings)
  | configurationOf (scopeUri : string).

Record SettingsState : Type :=
  mkSettingsState {
    hasConfigurationCapability : bool;
    globalSettings : GlobalSettings;
    documentSettings : gmap string settingsPromise;
    requested : list string }.

Definition getDocumentSettings (resource : string) (st : SettingsState)
    : settingsPromise * SettingsState :=
  if negb (hasConfigurationCapability st) then (resolved (globalSettings st), st)
  else
    match documentSettings st !! resource with
    | Some cachedResult => (cachedResult, st)
    | None =>
        let configurationPromise := configurationOf resource in
        (configurationPromise,
         mkSettingsState (hasConfigurationCapability st) (globalSettings st)
           (<[resource := configurationPromise]> (documentSettings st))
           (requested st ++ [resource]))
    end.

(** The settings part of [onDidClose]. *)
Definition closeSettings (uri : string) (st : SettingsState) : SettingsState :=
  mkSettingsState (hasConfigurationCapability st) (globalSettings st)
    (delete uri (documentSettings st)) (requested st).

(** The settings part of [onDidChangeConfiguration]; [changed] is
    [change.settings.languageServerExample], when there is one. *)
Definition changeConfiguration (defaultSettings : GlobalSettings)
    (changed : option GlobalSettings) (st : SettingsState) : SettingsState :=
  if hasConfigurationCapability st then
    mkSettingsState (hasConfigurationCapability st) (globalSettings st) ∅ (requested st)
  else
    mkSettingsState (hasConfigurationCapability st) (default defaultSettings changed)
      (documentSettings st) (requested st).
End Settings.
Arguments settingsPromise : clear implicits.
Arguments SettingsState : clear implicits.

Section Requests.
Context `{Env}.

(** What these handlers need besides [Env]: the callee of a machine call
    and the range of its location, the cursor test of [tools-shared],
    [JSON.stringify] of the requested position, and [getTsTypesEdits]. *)
Context {TsTypesEdit : Type}.
Variable calleeRange : MachineExtractResult -> option Range.
Variable isCursorInPosition : option SourceLocation -> Position -> bool.
Variable stringify : Position -> string.
Variable getTsTypesEdits : list TypegenData -> list TsTypesEdit.

(** **** [onCodeLens] *)
Record CodeLens : Type :=
  mkCodeLens {
    lens_range : Range;
    lens_title : string;
    lens_command : string;
    lens_arguments : string * nat }.

Definition lensesOf (uri : string) (index : nat) (slot : ExtractionResult) : list CodeLens :=
  match machineResult slot ≫= calleeRange with
  | None => []
  | Some calleeLoc =>
      [mkCodeLens calleeLoc "Open Visual Editor" "stately-xstate.edit-code-lens" (uri, index);
       mkCodeLens calleeLoc "Open Inspector" "stately-xstate.inspect" (uri, index)]
  end.

Definition onCodeLens (uri : string) (w : World) : list CodeLens :=
  match documentsCache w !! uri with
  | None => []
  | Some cachedDocument =>
      concat (imap (lensesOf uri) (extractionResults cachedDocument))
  end.

(** **** [getMachineAtCursorPosition] *)
Definition cursorInMachine (position : Position) (slot : ExtractionResult) : bool :=
  match machineResult slot with
  | None => false
  | Some machine =>
      isCursorInPosition
        (definition (machineCallResult machine) ≫= (fun d => loc (definition_node d)))
        position
      || isCursorInPosition
           (options (machineCallResult machine) ≫= (fun o => loc (options_node o)))
           position
  end.

Definition machineAtPositionNotFound (position : Position) : string :=
  "Machine at position " +:+ stringify position +:+ " was not found".

Definition getMachineAtCursorPosition (uri : string) (position : Position)
    : io (MachinePayload * nat) :=
  cachedDocument ← documentsCache_get uri;
  match cachedDocument with
  | None => throw (JsError noMachines)
  | Some cachedDocument =>
      if bool_decide (length (extractionResults cachedDocument) = 0)
      then throw (JsError noMachines)
      else
        match list_find (fun slot => cursorInMachine position slot = true)
                (extractionResults cachedDocument) with
        | None => throw (JsError (machineAtPositionNotFound position))
        | Some (machineResultIndex, _) =>
            slot ← element (extractionResults cachedDocument) machineResultIndex
                     (cannotRead "machineResult");
            machine ← defined (machineResult slot) "toConfig";
            mret (mkMachinePayload
                    (toConfig machine hashInlineImplementations)
                    (getLayoutComment machine)
                    (getInlineImplementations machine (documentText cachedDocument))
                    (set_from (getAllConds_named machine)),
                  machineResultIndex)
        end
  end.

(** **** [getTsTypesAndEdits] *)
Record TsTypesAndEdits : Type :=
  mkTsTypesAndEdits {
    response_types : list TypegenData;
    response_edits : list (string * TsTypesEdit) }.

Definition getTsTypesAndEdits (uri : string) (w : World) : TsTypesAndEdits :=
  match documentsCache w !! uri with
  | None => mkTsTypesAndEdits [] []
  | Some cachedDocument =>
      let types := typegenDataOf (extractionResults cachedDocument) in
      mkTsTypesAndEdits types (map (fun edit => (uri, edit)) (getTsTypesEdits types))
  end.
End Requests.

Section Passes.
Context `{Env}.

(** Is [uri] the document of the displayed machine? *)
Definition is_displayed (w : World) (uri : string) : bool :=
  match displayedMachine w with
  | Some d => bool_decide (displayed_uri d = uri)
  | None => false
  end.

(** A statement that leaves the cache and the displayed machine alone and
    sends only messages of one kind. *)
Definition sends_only {A} (kind : message -> bool) (m : io A) : Prop :=
  ∀ w, ∃ o out,
    m w = (o, mkWorld (documentsCache w) (displayedMachine w) (sent w ++ out)%list)
    ∧ forallb kind out = true.

(** What a pass may publish for [uri] after the notifications about the
    displayed machine: nothing, a batch of diagnostics, or a batch of
    diagnostics followed by the types of the batch it cached. *)
Definition published (w' : World) (uri : string) (tail : list message) : Prop :=
  tail = []
  ∨ (∃ diagnostics, tail = [sendDiagnostics uri diagnostics])
  ∨ (∃ diagnostics cached,
        documentsCache w' !! uri = Some cached
        ∧ tail = [sendDiagnostics uri diagnostics;
                  typesUpdated uri (typegenDataOf (extractionResults cached))]).
End Passes.

End ServerRequests.

(** ** Facts about the client's rendering *)
Module ClientProofs.
Import Js Client.

Section FirstSeen.
Context {A : Type} `{EqDecision A}.
Implicit Types (l acc : list A) (x : A).

Lemma filter_drop_excluded (P : A -> Prop) `{!∀ y, Decision (P y)} x l :
  ¬ P x -> filter P (filter (fun y => y ≠ x) l) = filter P l.
Proof.
  intros Hx. rewrite list_filter_filter. apply list_filter_iff.
  intros y. split; [tauto |]. intros Hy. split; [done |]. congruence.
Qed.

Lemma filter_swap (P Q : A -> Prop) `{!∀ y, Decision (P y)} `{!∀ y, Decision (Q y)} l :
  filter P (filter Q l) = filter Q (filter P l).
Proof. rewrite !list_filter_filter. apply list_filter_iff. tauto. Qed.

Lemma first_seen_filter (P : A -> Prop) `{!∀ y, Decision (P y)} l :
  first_seen (filter P l) = filter P (first_seen l).
Proof.
  induction l as [|y l IH]; [done |].
  rewrite filter_cons. destruct (decide (P y)) as [Hy | Hy]; simpl.
  - rewrite filter_cons_True by done. f_equal.
    rewrite IH. apply filter_swap.
  - rewrite filter_cons_False by done.
    rewrite IH. symmetry. by apply filter_drop_excluded.
Qed.



(** Adding to a set that already holds [acc]: the new elements follow, each
    where it was first seen. *)
Lemma foldl_set_add acc l :
  foldl set_add acc l = (acc ++ first_seen (filter (fun x => x ∉ acc) l))%list.
Proof.
  revert acc. induction l as [|x l IH]; intros acc; simpl.
  - by rewrite app_nil_r.
  - unfold set_add at 2. rewrite filter_cons.
    destruct (decide (x ∈ acc)) as [Hin | Hout].
    + rewrite decide_False by tauto. apply IH.
    + rewrite decide_True by done. rewrite IH. simpl.
      rewrite <- app_assoc. simpl. do 2 f_equal.
      rewrite <- first_seen_filter, list_filter_filter.
      f_equal. apply list_filter_iff. intros y.
      rewrite elem_of_app, list_elem_of_singleton. naive_solver.
Qed.

Lemma unique_first_seen l : unique l = first_seen l.
Proof.
  unfold unique, set_from. rewrite foldl_set_add. simpl.
  f_equal. induction l as [|x l IH]; [done |].
  rewrite filter_cons_True; [by rewrite IH | apply not_elem_of_nil].
Qed.


End FirstSeen.



(** *** Internal events *)

(** *** Internal events *)

Lemma append_assoc (a b c : string) : (a +:+ b) +:+ c = a +:+ b +:+ c.
Proof.
  induction a as [|x a IH]; [done |].
  change (String x ((a +:+ b) +:+ c) = String x (a +:+ b +:+ c)). by rewrite IH.
Qed.

Lemma entry_of_render (event : string) :
  entry_of event = render event <$> shape_of event (classify event).
Proof.
  unfold entry_of.
  destruct (classify event); simpl; [| | | | done]; f_equal;
    unfold inlineInvocationEntry, doneInvokeEntry, xstateEntry, errorPlatformEntry,
      render, provideAnEvent; simpl;
    rewrite ?append_assoc; reflexivity.
Qed.

Lemma collectEvent_entry (internalEvents : list string) (event : string) :
  collectEvent internalEvents event =
    match entry_of event with
    | Some entry => set_add internalEvents entry
    | None => internalEvents
    end.
Proof.
  unfold collectEvent, entry_of, classify.
  destruct (test inlineInvocationName event); [done |].
  destruct (startsWith event "done.invoke"); [done |].
  destruct (startsWith event "xstate."); [done |]. simpl.
  destruct (bool_decide (event = EmptyString)); [done |].
  by destruct (startsWith event "error.platform").
Qed.

Lemma foldl_collectEvent (events : list string) (acc : list string) :
  foldl collectEvent acc events = foldl set_add acc (omap entry_of events).
Proof.
  revert acc. induction events as [|event events IH]; intros acc; simpl; [done |].
  rewrite IH, collectEvent_entry. by destruct (entry_of event).
Qed.

Lemma collectInternalEvents_all_events (lineArrays : list (list Line)) :
  collectInternalEvents lineArrays = foldl collectEvent [] (all_events lineArrays).
Proof.
  unfold collectInternalEvents, all_events. generalize (@nil string).
  induction lineArrays as [|lines lineArrays IH]; intros acc; simpl; [done |].
  rewrite foldl_app, IH. f_equal.
  clear. revert acc. induction lines as [|line lines IH]; intros acc; simpl; [done |].
  by rewrite foldl_app, IH.
Qed.

(** An entry written from a shape shows the payload and the hint it has. *)
Lemma includes_here (needle rest : string) : includes (needle +:+ rest) needle = true.
Proof.
  unfold includes.
  assert (Hhere : match_here (lits needle) (needle +:+ rest) = true).
  { induction needle as [|d needle IHn]; [done |].
    change (bool_decide (d = d) && match_here (lits needle) (needle +:+ rest) = true).
    by rewrite bool_decide_true, IHn. }
  destruct (needle +:+ rest); simpl; by rewrite Hhere.
Qed.

Lemma includes_skip (needle before s : string) :
  includes s needle = true -> includes (before +:+ s) needle = true.
Proof.
  unfold includes. intros Hs. induction before as [|c before IH]; [done |].
  change (match_here (lits needle) (String c (before +:+ s))
          || test (lits needle) (before +:+ s) = true).
  rewrite IH. apply orb_true_r.
Qed.

Lemma render_data_unknown (event : string) (s : shape) :
  data_unknown s = true -> has_unknown_data (render event s) = true.
Proof.
  intros Hs. unfold has_unknown_data, render. rewrite Hs.
  apply (includes_skip _ "'"), (includes_skip _ event), (includes_skip _ "': {"),
    (includes_skip _ (lead s)), (includes_skip _ "type: '"), (includes_skip _ event),
    (includes_skip _ "'").
  change "; data: unknown" with ("; " +:+ "data: unknown").
  rewrite append_assoc. apply (includes_skip _ "; "), includes_here.
Qed.

Lemma render_tip (event : string) (s : shape) :
  is_Some (tip s) -> has_hint (render event s) = true.
Proof.
  intros [t Ht]. unfold has_hint, render. rewrite Ht.
  apply (includes_skip _ "'"), (includes_skip _ event), (includes_skip _ "': {"),
    (includes_skip _ (lead s)), (includes_skip _ "type: '"), (includes_skip _ event),
    (includes_skip _ "'"), (includes_skip _ (if data_unknown s then _ else _)).
  change "; __tip: " with ("; " +:+ "__tip" +:+ ": ").
  rewrite !append_assoc. apply (includes_skip _ "; "), includes_here.
Qed.

(** C9, as the code has it: the collected entries are the entries of the
    events of the four internal classes, each once and where it was first
    seen.  The classes are tried in order: a name in which the
    inline-invocation pattern matches (anywhere) gets unknown data and the
    advice to name the invocation; any other name starting with done.invoke
    gets unknown data and a hint; any other name starting with xstate., or
    the empty name, gets no payload; any other name starting with
    error.platform gets unknown data and no hint. *)
Theorem collectInternalEvents_by_class (lineArrays : list (list Line)) :
  collectInternalEvents lineArrays =
    first_seen
      (omap (fun event => render event <$> shape_of event (classify event))
         (all_events lineArrays))
  ∧ (∀ event lead tip, has_unknown_data (render event (mkShape lead true tip)) = true)
  ∧ (∀ event lead payload hint,
        has_hint (render event (mkShape lead payload (Some hint))) = true).
Proof.
  split; [| split; intros; [by apply render_data_unknown | by apply render_tip]].
  rewrite collectInternalEvents_all_events, foldl_collectEvent.
  rewrite <- unique_first_seen. unfold unique, set_from. f_equal.
  generalize (all_events lineArrays). intros events.
  induction events as [|event events IH]; csimpl; [done |].
  by rewrite IH, entry_of_render.
Qed.

(** C9, as stated, fails: the entry of a platform-error event has no hint,
    and a name with the xstate. prefix in which the inline-invocation
    pattern matches gets a payload and the hint. *)
Lemma collectInternalEvents_counterexample :
  (∃ entry,
      collectInternalEvents [[mkLine "fetch" ["error.platform.fetch"]]] = [entry]
      ∧ startsWith "error.platform.fetch" "error.platform" = true
      ∧ has_unknown_data entry = true
      ∧ has_hint entry = false)
  ∧ (∃ entry,
      collectInternalEvents [[mkLine "a" ["xstate.done.invoke.a:invocation[0]"]]] = [entry]
      ∧ startsWith "xstate.done.invoke.a:invocation[0]" "xstate." = true
      ∧ has_unknown_data entry = true
      ∧ has_hint entry = true).
Proof. split; eexists; repeat split; vm_compute; reflexivity. Qed.

End ClientProofs.

(** ** Facts about the language server *)
Module ServerProofs.
Import Js Server.

(** Unfold one layer of the statement combinators. *)
Ltac step :=
  repeat progress
    (unfold element, defined, mbind, mret, io_bind, io_ret, bind, ret, call, throw,
       try_catch, send, documentsCache_set, documentsCache_get, get_displayedMachine;
     simpl).

Section Reconciliation.
Context `{Env}.
Implicit Types (w : World) (textDocument : TextDocument).

(** **** Outcomes of the blocks of [handleDocumentChange] *)

Lemma reconcile_nothing textDocument previous w :
  extractMachinesFromFile (getText textDocument) = Returns None ->
  reconcile textDocument previous w = (Returns tt, w).
Proof. intros Hx. unfold reconcile. step. by rewrite Hx. Qed.

Lemma publish_returns textDocument settings machines types previous diagnostics w :
  getDiagnostics (omap id machines) textDocument settings = Returns diagnostics ->
  publish textDocument settings machines types previous w =
    (Returns tt,
     mkWorld (documentsCache w) (displayedMachine w)
       (sent w ++
        sendDiagnostics (uri textDocument) diagnostics ::
        if negb (bool_decide (filter areTypesWritable types = [])) &&
           negb (bool_decide
                   (inSync <$> (extractionResults <$> previous)
                    = Some (map data (filter areTypesWritable types))))
        then [typesUpdated (uri textDocument) types] else [])%list).
Proof.
  intros Hd. unfold publish. step. rewrite Hd. simpl.
  assert (Hlen : bool_decide (length (filter areTypesWritable types) = 0)
                 = bool_decide (filter areTypesWritable types = [])).
  { apply bool_decide_ext. split; [apply nil_length_inv | by intros ->]. }
  rewrite Hlen.
  assert (Hprev : bool_decide
            ((fun cached => map data (filter areTypesWritable
                                       (typegenDataOf (extractionResults cached))))
               <$> previous = Some (map data (filter areTypesWritable types)))
          = bool_decide (inSync <$> (extractionResults <$> previous)
                         = Some (map data (filter areTypesWritable types)))).
  { apply bool_decide_ext. by destruct previous. }
  rewrite Hprev.
  destruct (negb _ && negb _); simpl; [| done].
  by rewrite <- app_assoc.
Qed.

Lemma publish_throws textDocument settings machines types previous e w :
  getDiagnostics (omap id machines) textDocument settings = Throws e ->
  publish textDocument settings machines types previous w = (Throws e, w).
Proof. intros Hd. unfold publish. step. by rewrite Hd. Qed.

Lemma displayedStep_unresolved text previous results index w :
  results !! index = None ->
  displayedStep text previous results index w =
    (Throws (cannotDestructure "configError"), w).
Proof. intros Hi. unfold displayedStep. step. by rewrite Hi. Qed.

Lemma displayedStep_configError text previous results index current w :
  results !! index = Some current ->
  truthy_opt (configError current) = true ->
  displayedStep text previous results index w =
    (Returns false,
     mkWorld (documentsCache w) (displayedMachine w)
       (sent w ++ [extractionError (configError current)])).
Proof. intros Hi Ht. unfold displayedStep. step. by rewrite Hi, Ht. Qed.

Lemma displayedStep_proceeds text previous results index current w :
  results !! index = Some current ->
  truthy_opt (configError current) = false ->
  is_Some (machineResult current) ->
  (∀ cached, previous = Some cached -> index < length (extractionResults cached)) ->
  ∃ shown,
    forallb about_displayed shown = true ∧
    displayedStep text previous results index w =
      (Returns true,
       mkWorld (documentsCache w) (displayedMachine w) (sent w ++ shown)).
Proof.
  intros Hi Ht [machine Hm] Hprev. destruct w as [cache displayed out].
  unfold displayedStep. step. rewrite Hi, Ht, Hm.
  destruct previous as [cached |]; simpl.
  - destruct (lookup_lt_is_Some_2 (extractionResults cached) index) as [old Hold];
      [by apply Hprev |].
    rewrite Hold. simpl.
    destruct (truthy_opt (configError old)); simpl;
      destruct (toConfig machine plainConfig); simpl;
      destruct (machineResult old) as [oldMachine |]; simpl;
      try destruct (negb (bool_decide _)); simpl;
      rewrite <- ?app_assoc; simpl;
      first [ by (eexists; split; [| reflexivity])
            | by (exists []; rewrite app_nil_r) ].
  - destruct (toConfig machine plainConfig); simpl;
      exists []; by rewrite app_nil_r.
Qed.

(** **** The whole pass *)

Lemma handleDocumentChange_returns textDocument w :
  (handleDocumentChange textDocument w).1 = Returns tt.
Proof.
  unfold handleDocumentChange. step.
  destruct (reconcile textDocument _ w) as [[[] | e] w']; [done |].
  unfold recover. step.
  destruct (displayedMachine w') as [d |]; [| done].
  by destruct (bool_decide _).
Qed.

(** Once the extractor found machines and the settings arrived, the new
    batch is cached and the pass goes on with the displayed machine. *)
Lemma reconcile_extracted textDocument previous w extracted settings :
  extractMachinesFromFile (getText textDocument) = Returns (Some extracted) ->
  getDocumentSettings (uri textDocument) = Returns settings ->
  reconcile textDocument previous w =
    bind
      match displayedMachine w with
      | Some d =>
          if bool_decide (displayed_uri d = uri textDocument)
          then displayedStep (getText textDocument) previous
                 (batch textDocument extracted) (machineIndex d)
          else ret true
      | None => ret true
      end
      (fun proceed : bool =>
         if proceed
         then publish textDocument settings (filterOutIgnoredMachines extracted)
                (typegenDataOf (batch textDocument extracted)) previous
         else ret tt)
      (mkWorld
         (<[uri textDocument :=
              mkCachedDocument (getText textDocument) (batch textDocument extracted)]>
            (documentsCache w))
         (displayedMachine w) (sent w)).
Proof. intros Hx Hs. unfold reconcile. step. by rewrite Hx, Hs. Qed.

(** C4: when the extractor returns nothing the pass stops at once: the
    cache, the displayed machine and everything sent are as before (no
    diagnostics published or cleared, no notification). *)
Theorem nothing_extracted_nothing_changes textDocument w :
  extractMachinesFromFile (getText textDocument) = Returns None ->
  handleDocumentChange textDocument w = (Returns tt, w).
Proof.
  intros Hx. unfold handleDocumentChange. step.
  by rewrite (reconcile_nothing _ _ _ Hx).
Qed.

(** C5: when the displayed machine belongs to the changed document and its
    index is past the end of the new batch, the pass does not fail: the
    batch is cached, the [TypeError] is caught, one error notification is
    sent (it carries the engine's text for the failed destructuring) and
    the diagnostics are cleared; nothing else is sent. *)
Theorem displayed_index_past_the_end textDocument w extracted settings d :
  extractMachinesFromFile (getText textDocument) = Returns (Some extracted) ->
  getDocumentSettings (uri textDocument) = Returns settings ->
  displayedMachine w = Some d ->
  displayed_uri d = uri textDocument ->
  (length (filterOutIgnoredMachines extracted) ≤ machineIndex d)%nat ->
  handleDocumentChange textDocument w =
    (Returns tt,
     mkWorld
       (<[uri textDocument :=
            mkCachedDocument (getText textDocument) (batch textDocument extracted)]>
          (documentsCache w))
       (displayedMachine w)
       (sent w ++
        [extractionError (Some (destructuringMessage "configError"));
         sendDiagnostics (uri textDocument) []])).
Proof.
  intros Hx Hs Hd Huri Hlen. unfold handleDocumentChange. step.
  rewrite (reconcile_extracted _ _ _ _ _ Hx Hs). unfold bind.
  rewrite Hd, bool_decide_true by done.
  rewrite displayedStep_unresolved.
  2: { apply lookup_ge_None_2. unfold batch. by rewrite length_imap. }
  unfold recover. step. rewrite bool_decide_true by done. simpl.
  by rewrite <- app_assoc.
Qed.

(** The slots of a batch. *)
Lemma batch_lookup textDocument extracted i :
  batch textDocument extracted !! i =
    extractionResult (uri textDocument) i <$> filterOutIgnoredMachines extracted !! i.
Proof. unfold batch. apply list_lookup_imap. Qed.

Lemma extractionResult_throws uri i machine e :
  analyse uri i machine = Throws e ->
  extractionResult uri i machine =
    mkExtractionResult machine None (Some (error_message e)).
Proof. intros Ha. unfold extractionResult. by rewrite Ha. Qed.

Lemma extractionResult_returns uri i machine r :
  analyse uri i machine = Returns r ->
  extractionResult uri i machine = r ∧
  machineResult r = machine ∧ configError r = None ∧
  (typed machine = true -> is_Some (types r)).
Proof.
  intros Ha. unfold extractionResult. rewrite Ha. split; [done |].
  unfold analyse in Ha. destruct machine as [m |]; simpl.
  - destruct (isTypedMachineResult m).
    + destruct (getTypegenData _ _ _); inversion Ha; subst; simpl. eauto.
    + destruct (introspect _); inversion Ha; subst; simpl. by repeat split.
  - destruct (introspect _); inversion Ha; subst; simpl. by repeat split.
Qed.

(** **** Statements that only send *)

Lemma only_sends_ret {A} (a : A) : only_sends (ret a).
Proof. intros w. simpl. repeat split. exists []. by rewrite app_nil_r. Qed.

Lemma only_sends_throw {A} (e : thrown) : only_sends (@throw _ A e).
Proof. intros w. simpl. repeat split. exists []. by rewrite app_nil_r. Qed.

Lemma only_sends_call {A} (o : outcome A) : only_sends (call o).
Proof. intros w. simpl. repeat split. exists []. by rewrite app_nil_r. Qed.

Lemma only_sends_send (m : message) : only_sends (send m).
Proof. intros w. simpl. repeat split. by exists [m]. Qed.

Lemma only_sends_get_displayedMachine : only_sends get_displayedMachine.
Proof. intros w. simpl. repeat split. exists []. by rewrite app_nil_r. Qed.

Lemma only_sends_bind {A B} (m : io A) (k : A -> io B) :
  only_sends m -> (∀ a, only_sends (k a)) -> only_sends (bind m k).
Proof.
  intros Hm Hk w. unfold bind. destruct (Hm w) as (Hc & Hd & out & Hout).
  destruct (m w) as [[a | e] w1]; simpl in *.
  - destruct (Hk a w1) as (Hc' & Hd' & out' & Hout').
    rewrite Hc', Hd', Hout', Hc, Hd, Hout. repeat split.
    exists (out ++ out')%list. by rewrite app_assoc.
  - eauto.
Qed.

Lemma only_sends_try_catch {A} (m : io A) (handler : thrown -> io A) :
  only_sends m -> (∀ e, only_sends (handler e)) -> only_sends (try_catch m handler).
Proof.
  intros Hm Hk w. unfold try_catch. destruct (Hm w) as (Hc & Hd & out & Hout).
  destruct (m w) as [[a | e] w1]; simpl in *.
  - eauto.
  - destruct (Hk e w1) as (Hc' & Hd' & out' & Hout').
    rewrite Hc', Hd', Hout', Hc, Hd, Hout. repeat split.
    exists (out ++ out')%list. by rewrite app_assoc.
Qed.

Ltac sends :=
  repeat first
    [ apply only_sends_ret | apply only_sends_throw | apply only_sends_call
    | apply only_sends_send | apply only_sends_get_displayedMachine
    | apply only_sends_bind; [| intros ?]
    | match goal with
      | |- only_sends (match ?x with _ => _ end) => destruct x
      | |- only_sends (if ?b then _ else _) => destruct b
      end ].

Lemma only_sends_displayedStep text previous results index :
  only_sends (displayedStep text previous results index).
Proof.
  unfold displayedStep, element, defined, mbind, mret, io_bind, io_ret. sends.
Qed.

Lemma only_sends_publish textDocument settings machines types previous :
  only_sends (publish textDocument settings machines types previous).
Proof. unfold publish, mbind, mret, io_bind, io_ret. sends. Qed.

Lemma only_sends_recover textDocument e : only_sends (recover textDocument e).
Proof. unfold recover, mbind, mret, io_bind, io_ret. sends. Qed.

(** The cache entry a pass writes is there whatever happens afterwards. *)
Lemma handleDocumentChange_caches textDocument w extracted settings :
  extractMachinesFromFile (getText textDocument) = Returns (Some extracted) ->
  getDocumentSettings (uri textDocument) = Returns settings ->
  documentsCache (handleDocumentChange textDocument w).2 =
    <[uri textDocument :=
        mkCachedDocument (getText textDocument) (batch textDocument extracted)]>
      (documentsCache w).
Proof.
  intros Hx Hs. unfold handleDocumentChange. step.
  rewrite (reconcile_extracted _ _ _ _ _ Hx Hs).
  set (w1 := mkWorld _ _ _). set (rest := bind _ _).
  assert (Hrest : only_sends rest).
  { subst rest. apply only_sends_bind.
    - destruct (displayedMachine w) as [d |]; [| apply only_sends_ret].
      destruct (bool_decide _);
        [apply only_sends_displayedStep | apply only_sends_ret].
    - intros [|]; [apply only_sends_publish | apply only_sends_ret]. }
  destruct (Hrest w1) as (Hc & _).
  destruct (rest w1) as [[[] | e] w2]; simpl in *; [done |].
  destruct (only_sends_recover textDocument e w2) as (Hc' & _).
  by rewrite Hc', Hc.
Qed.

(** C6: when exactly one of the N extracted machines has an invalid config
    (its analysis throws), the pass caches N extraction results, slot for
    slot: the invalid machine's slot carries the error message and no
    types, every other slot has its machine result, no config error and,
    for a typed machine, its types. *)
Theorem one_invalid_machine_is_isolated textDocument w extracted settings k invalid e :
  extractMachinesFromFile (getText textDocument) = Returns (Some extracted) ->
  getDocumentSettings (uri textDocument) = Returns settings ->
  filterOutIgnoredMachines extracted !! k = Some invalid ->
  analyse (uri textDocument) k invalid = Throws e ->
  (∀ i machine,
      i ≠ k -> filterOutIgnoredMachines extracted !! i = Some machine ->
      ∃ r, analyse (uri textDocument) i machine = Returns r) ->
  ∃ results,
    documentsCache (handleDocumentChange textDocument w).2 !! uri textDocument =
      Some (mkCachedDocument (getText textDocument) results)
    ∧ length results = length (filterOutIgnoredMachines extracted)
    ∧ ∀ i machine,
        filterOutIgnoredMachines extracted !! i = Some machine ->
        ∃ r, results !! i = Some r ∧ machineResult r = machine ∧
             ((i = k ∧ configError r = Some (error_message e) ∧ types r = None)
              ∨ (i ≠ k ∧ configError r = None ∧
                 (typed machine = true -> is_Some (types r)))).
Proof.
  intros Hx Hs Hk Hbad Hgood. exists (batch textDocument extracted).
  split; [| split].
  - rewrite (handleDocumentChange_caches _ _ _ _ Hx Hs). apply lookup_insert_eq.
  - unfold batch. apply length_imap.
  - intros i machine Hi. rewrite batch_lookup, Hi. simpl.
    eexists. split; [done |].
    destruct (decide (i = k)) as [-> | Hne].
    + assert (machine = invalid) as -> by congruence.
      rewrite (extractionResult_throws _ _ _ _ Hbad). simpl. split; [done |]. by left.
    + destruct (Hgood i machine Hne Hi) as [r Hr].
      destruct (extractionResult_returns _ _ _ _ Hr) as (-> & Hm & Hc & Ht).
      split; [done |]. right. by repeat split.
Qed.

(** **** The early return *)

(** When the displayed machine of the changed document has a config error,
    the pass sends the error and returns before the diagnostics. *)
Lemma displayed_configError_returns_early textDocument w extracted settings d current :
  extractMachinesFromFile (getText textDocument) = Returns (Some extracted) ->
  getDocumentSettings (uri textDocument) = Returns settings ->
  displayedMachine w = Some d ->
  displayed_uri d = uri textDocument ->
  batch textDocument extracted !! machineIndex d = Some current ->
  truthy_opt (configError current) = true ->
  emitted (handleDocumentChange textDocument) w = [extractionError (configError current)].
Proof.
  intros Hx Hs Hd Huri Hcur Hbad. unfold emitted, handleDocumentChange. step.
  rewrite (reconcile_extracted _ _ _ _ _ Hx Hs). unfold bind.
  rewrite Hd, bool_decide_true by done.
  rewrite (displayedStep_configError _ _ _ _ _ _ Hcur Hbad). simpl.
  by rewrite drop_app_length.
Qed.

(** **** The exception path *)

(** Whatever the [try] block throws, the pass ends by publishing the empty
    batch of diagnostics, after the error notification when the document is
    the displayed one. *)
Lemma exception_clears_diagnostics textDocument w e w1 :
  reconcile textDocument (documentsCache w !! uri textDocument) w = (Throws e, w1) ->
  handleDocumentChange textDocument w =
    (Returns tt,
     mkWorld (documentsCache w1) (displayedMachine w1)
       (sent w1 ++
        (match displayedMachine w1 with
         | Some d =>
             if bool_decide (displayed_uri d = uri textDocument)
             then [extractionError (Some (error_message e))] else []
         | None => []
         end ++ [sendDiagnostics (uri textDocument) []]))%list).
Proof.
  intros Hthrow. unfold handleDocumentChange. step. rewrite Hthrow.
  unfold recover. step.
  destruct w1 as [cache [d |] out]; simpl; [destruct (bool_decide _); simpl |];
    by rewrite <- ?app_assoc.
Qed.

(** **** The pass that publishes *)

(** C2, as the code has it: on a pass that gets to publish the batch's
    diagnostics, [typesUpdated] follows exactly when some machine of the
    new batch is in sync and the data of the machines in sync differ from
    those of the cached batch (no cached batch counts as different); it
    carries the types of every typed machine of the new batch. *)
Theorem typesUpdated_when_in_sync_changes textDocument w extracted settings diagnostics :
  extractMachinesFromFile (getText textDocument) = Returns (Some extracted) ->
  getDocumentSettings (uri textDocument) = Returns settings ->
  getDiagnostics (omap id (filterOutIgnoredMachines extracted)) textDocument settings
    = Returns diagnostics ->
  displayed_resolves w (uri textDocument) (batch textDocument extracted) = true ->
  ∃ shown,
    forallb about_displayed shown = true ∧
    emitted (handleDocumentChange textDocument) w =
      (shown ++
       sendDiagnostics (uri textDocument) diagnostics ::
       if negb (bool_decide (inSync (batch textDocument extracted) = [])) &&
          negb (bool_decide
                  (inSync <$> (extractionResults <$> documentsCache w !! uri textDocument)
                   = Some (inSync (batch textDocument extracted))))
       then [typesUpdated (uri textDocument) (typegenDataOf (batch textDocument extracted))]
       else [])%list.
Proof.
  intros Hx Hs Hdiag Hres. unfold emitted, handleDocumentChange. step.
  rewrite (reconcile_extracted _ _ _ _ _ Hx Hs). unfold bind.
  set (w1 := mkWorld _ _ _).
  assert (Hstep : ∃ shown,
    forallb about_displayed shown = true ∧
    match displayedMachine w with
    | Some d =>
        if bool_decide (displayed_uri d = uri textDocument)
        then displayedStep (getText textDocument) (documentsCache w !! uri textDocument)
               (batch textDocument extracted) (machineIndex d)
        else ret true
    | None => ret true
    end w1 = (Returns true,
              mkWorld (documentsCache w1) (displayedMachine w1) (sent w ++ shown)%list)).
  { unfold displayed_resolves in Hres.
    destruct (displayedMachine w) as [d |] eqn:Hd;
      [| exists []; by rewrite app_nil_r].
    destruct (bool_decide (displayed_uri d = uri textDocument));
      [| exists []; by rewrite app_nil_r].
    destruct (batch textDocument extracted !! machineIndex d) as [current |] eqn:Hcur;
      [| done].
    apply andb_prop in Hres as [Hres Hprev]. apply andb_prop in Hres as [Hok Hm].
    apply negb_true_iff in Hok. apply bool_decide_eq_true in Hm.
    apply (displayedStep_proceeds _ _ _ _ _ w1 Hcur Hok Hm).
    intros cached Hcached. rewrite Hcached in Hprev.
    by apply bool_decide_eq_true in Hprev. }
  destruct Hstep as (shown & Hshown & ->). exists shown. split; [done |].
  rewrite (publish_returns _ _ _ _ _ _ _ Hdiag). simpl.
  rewrite <- app_assoc, drop_app_length.
  assert (Hempty : bool_decide
            (filter areTypesWritable (typegenDataOf (batch textDocument extracted)) = [])
          = bool_decide (inSync (batch textDocument extracted) = [])).
  { apply bool_decide_ext. unfold inSync. split; [by intros -> |].
    apply fmap_nil_inv. }
  by rewrite Hempty.
Qed.
End Reconciliation.

Section Requests.
Context `{Env}.
Implicit Types (w : World).

(** **** [getMachineAtIndex] *)

(** An index past the end of a non-empty batch: the handler reads
    [machineResult] of [undefined]. *)
Lemma getMachineAtIndex_past_the_end uri index w cached :
  documentsCache w !! uri = Some cached ->
  extractionResults cached ≠ [] ->
  (length (extractionResults cached) ≤ index)%nat ->
  getMachineAtIndex uri index w = (Throws (cannotRead "machineResult"), w).
Proof.
  intros Hc Hne Hlen. unfold getMachineAtIndex. step. rewrite Hc.
  rewrite bool_decide_false by (by intros ?%nil_length_inv). step.
  by rewrite lookup_ge_None_2.
Qed.

(** The descriptive error is for a slot without a machine result. *)
Lemma getMachineAtIndex_no_machineResult uri index w cached slot :
  documentsCache w !! uri = Some cached ->
  extractionResults cached !! index = Some slot ->
  machineResult slot = None ->
  getMachineAtIndex uri index w =
    (Throws (JsError (machineNotFound index (length (extractionResults cached)))), w).
Proof.
  intros Hc Hslot Hm. unfold getMachineAtIndex. step. rewrite Hc.
  rewrite bool_decide_false.
  2: { intros Hlen%nil_length_inv. by rewrite Hlen in Hslot. }
  step. by rewrite Hslot, Hm.
Qed.

Lemma getMachineAtIndex_found uri index w cached slot machine :
  documentsCache w !! uri = Some cached ->
  extractionResults cached !! index = Some slot ->
  machineResult slot = Some machine ->
  getMachineAtIndex uri index w =
    (Returns (mkMachinePayload (toConfig machine hashInlineImplementations)
                (getLayoutComment machine)
                (getInlineImplementations machine (documentText cached))
                (set_from (getAllConds_named machine))), w).
Proof.
  intros Hc Hslot Hm. unfold getMachineAtIndex. step. rewrite Hc.
  rewrite bool_decide_false.
  2: { intros Hlen%nil_length_inv. by rewrite Hlen in Hslot. }
  step. by rewrite Hslot, Hm.
Qed.

(** **** [applyMachineEdits] *)

(** C10: a successful [applyMachineEdits] replaces the machine result of
    the displayed machine's slot by the one re-extracted from the edited
    text, and nothing else: the entry keeps the text from before the edit,
    the slot keeps its types and config error, the other slots, the other
    documents, the displayed machine and what was sent are unchanged.  A
    later [getMachineAtIndex] for that slot pairs the new machine result
    with the old text. *)
Theorem applyMachineEdits_patches_one_slot machineEdits w response w' :
  applyMachineEdits machineEdits w = (Returns response, w') ->
  ∃ d cached slot machine modified file machineNodes extractedAgain,
    displayedMachine w = Some d
    ∧ documentsCache w !! displayed_uri d = Some cached
    ∧ extractionResults cached !! machineIndex d = Some slot
    ∧ machineResult slot = Some machine
    ∧ modify machine machineEdits = Returns modified
    ∧ getMachineNodesFromFile (editedText (documentText cached) modified)
        = Returns (file, machineNodes)
    ∧ getMachineExtractResult file (editedText (documentText cached) modified)
        (machineNodes !! machineIndex d) = Returns extractedAgain
    ∧ w' = mkWorld
             (<[displayed_uri d :=
                  mkCachedDocument (documentText cached)
                    (<[machineIndex d :=
                         mkExtractionResult extractedAgain (types slot) (configError slot)]>
                       (extractionResults cached))]>
                (documentsCache w))
             (displayedMachine w) (sent w)
    ∧ response = [mkReplaceEdit (displayed_uri d) (modified_range modified)
                    (modified_newText modified)]
    ∧ (getMachineAtIndex (displayed_uri d) (machineIndex d) w').1 =
        match extractedAgain with
        | Some again =>
            Returns (mkMachinePayload (toConfig again hashInlineImplementations)
                       (getLayoutComment again)
                       (getInlineImplementations again (documentText cached))
                       (set_from (getAllConds_named again)))
        | None =>
            Throws (JsError (machineNotFound (machineIndex d)
                               (length (extractionResults cached))))
        end.
Proof.
  unfold applyMachineEdits. step.
  destruct (displayedMachine w) as [d |] eqn:Hd; [| by (simpl; intros; discriminate)]. step.
  destruct (documentsCache w !! displayed_uri d) as [cached |] eqn:Hc; [| by (simpl; intros; discriminate)]. step.
  destruct (extractionResults cached !! machineIndex d) as [slot |] eqn:Hslot; [| by (simpl; intros; discriminate)].
  step.
  destruct (machineResult slot) as [machine |] eqn:Hm; [| by (simpl; intros; discriminate)]. step.
  destruct (modify machine machineEdits) as [modified |] eqn:Hmod; [| by (simpl; intros; discriminate)]. step.
  fold (editedText (documentText cached) modified).
  destruct (getMachineNodesFromFile _) as [[file machineNodes] |] eqn:Hparse; [| by (simpl; intros; discriminate)].
  step.
  destruct (getMachineExtractResult _ _ _) as [extractedAgain |] eqn:Hagain; [| by (simpl; intros; discriminate)].
  unfold assign_machineResult. simpl. intros [= <- <-].
  assert (Hcache :
    alter (fun cached0 =>
             mkCachedDocument (documentText cached0)
               (alter (fun slot0 =>
                         mkExtractionResult extractedAgain (types slot0) (configError slot0))
                  (machineIndex d) (extractionResults cached0)))
      (displayed_uri d) (documentsCache w)
    = <[displayed_uri d :=
          mkCachedDocument (documentText cached)
            (<[machineIndex d :=
                 mkExtractionResult extractedAgain (types slot) (configError slot)]>
               (extractionResults cached))]> (documentsCache w)).
  { apply map_eq. intros u. destruct (decide (displayed_uri d = u)) as [<- | Hne].
    - rewrite lookup_alter_eq, lookup_insert_eq, Hc. simpl. f_equal. f_equal.
      apply list_eq. intros j. destruct (decide (machineIndex d = j)) as [<- | Hj].
      + rewrite list_lookup_alter_eq, list_lookup_insert_eq, Hslot; [done |].
        by eapply lookup_lt_Some.
      + by rewrite list_lookup_alter_ne, list_lookup_insert_ne.
    - by rewrite lookup_alter_ne, lookup_insert_ne. }
  rewrite Hcache.
  exists d, cached, slot, machine, modified, file, machineNodes, extractedAgain.
  repeat (split; [by rewrite ?Hd |]). rewrite Hd.
  set (slot' := mkExtractionResult extractedAgain (types slot) (configError slot)).
  assert (Hslot' : <[machineIndex d := slot']> (extractionResults cached) !! machineIndex d
                   = Some slot').
  { apply list_lookup_insert_eq. by eapply lookup_lt_Some. }
  destruct extractedAgain as [again |].
  - rewrite (getMachineAtIndex_found _ _ _
               (mkCachedDocument (documentText cached)
                  (<[machineIndex d := slot']> (extractionResults cached)))
               slot' again (lookup_insert_eq _ _ _) Hslot' eq_refl).
    reflexivity.
  - rewrite (getMachineAtIndex_no_machineResult _ _ _
               (mkCachedDocument (documentText cached)
                  (<[machineIndex d := slot']> (extractionResults cached)))
               slot' (lookup_insert_eq _ _ _) Hslot' eq_refl).
    simpl. by rewrite length_insert.
Qed.
End Requests.

Section Edits.
Context `{Env}.



End Edits.

End ServerProofs.

(** ** Concrete runs, over the small implementation of the collaborators *)
Module Scenarios.
Import Js Server Fixture ServerProofs.

(** C1 fails on the code: the displayed machine of [a.ts] gets an invalid
    config; the extractor yields two machines, the pass sends the error and
    returns, and no diagnostics are published for the document: the last
    published batch is the one from before the change. *)
Theorem displayed_configError_publishes_no_diagnostics :
  extractMachinesFromFile "xu" = Returns (Some (machinesFrom 0 "xu"))
  ∧ emitted (handleDocumentChange (doc "a.ts" "xu")) shown
    = [extractionError (Some "Invalid config")]
  ∧ filter (is_diagnostics "a.ts")
      (sent (after (handleDocumentChange (doc "a.ts" "xu")) shown))
    = [sendDiagnostics "a.ts" ["u"%char]]
  ∧ emitted (handleDocumentChange (doc "a.ts" "xu")) opened
    = [sendDiagnostics "a.ts" ["x"%char; "u"%char]].
Proof. repeat split; vm_compute; reflexivity. Qed.

(** C2, as stated, fails: (1) the machines in sync go from one to none and
    no [typesUpdated] is sent; (2) the [typesUpdated] sent for a new
    document carries a machine that is not in sync. *)
Lemma typesUpdated_counterexample :
  (inSync (cachedBatch typedOpened "a.ts") = [0]
   ∧ inSync (cachedBatch (after (handleDocumentChange (doc "a.ts" "s")) typedOpened) "a.ts") = []
   ∧ emitted (handleDocumentChange (doc "a.ts" "s")) typedOpened
     = [sendDiagnostics "a.ts" ["s"%char]])
  ∧ (emitted (handleDocumentChange (doc "b.ts" "ts")) emptyWorld
     = [sendDiagnostics "b.ts" ["t"%char; "s"%char];
        typesUpdated "b.ts" [mkTypegenData 0 0; mkTypegenData 2 1]]
     ∧ areTypesWritable (mkTypegenData 2 1) = false).
Proof. repeat split; vm_compute; reflexivity. Qed.

Lemma typesUpdated_when_in_sync_changes_witness :
  extractMachinesFromFile (getText (doc "a.ts" "ts")) = Returns (Some (machinesFrom 0 "ts"))
  ∧ getDocumentSettings (uri (doc "a.ts" "ts")) = Returns tt
  ∧ getDiagnostics (omap id (filterOutIgnoredMachines (machinesFrom 0 "ts")))
      (doc "a.ts" "ts") tt = Returns ["t"%char; "s"%char]
  ∧ displayed_resolves shown "a.ts" (batch (doc "a.ts" "ts") (machinesFrom 0 "ts")) = true
  ∧ ∃ about,
      forallb about_displayed about = true ∧
      emitted (handleDocumentChange (doc "a.ts" "ts")) shown =
        (about ++
         sendDiagnostics "a.ts" ["t"%char; "s"%char] ::
         if negb (bool_decide (inSync (batch (doc "a.ts" "ts") (machinesFrom 0 "ts")) = [])) &&
            negb (bool_decide
                    (inSync <$> (extractionResults <$> documentsCache shown !! "a.ts")
                     = Some (inSync (batch (doc "a.ts" "ts") (machinesFrom 0 "ts")))))
         then [typesUpdated "a.ts" (typegenDataOf (batch (doc "a.ts" "ts") (machinesFrom 0 "ts")))]
         else [])%list.
Proof.
  repeat (split; [vm_compute; reflexivity |]).
  apply (typesUpdated_when_in_sync_changes (doc "a.ts" "ts") shown (machinesFrom 0 "ts") tt
           ["t"%char; "s"%char]); vm_compute; reflexivity.
Defined.

(** C3 fails on the code: [a.ts] has one machine and index 1 is requested;
    the handler throws a [TypeError], not the error that names the index and
    the count. *)
Theorem getMachineAtIndex_past_the_end_throws_TypeError :
  length (cachedBatch opened "a.ts") = 1
  ∧ (getMachineAtIndex "a.ts" 1 opened).1
    = Throws (TypeError "Cannot read properties of undefined (reading 'machineResult')")
  ∧ machineNotFound 1 1 = "Machine 1 was not found. This document has only 1 machine(s)".
Proof. repeat split; vm_compute; reflexivity. Qed.

Lemma nothing_extracted_nothing_changes_witness :
  extractMachinesFromFile (getText (doc "a.ts" EmptyString)) = Returns None
  ∧ handleDocumentChange (doc "a.ts" EmptyString) shown = (Returns tt, shown).
Proof.
  split; [reflexivity |].
  apply (nothing_extracted_nothing_changes (doc "a.ts" EmptyString) shown). reflexivity.
Defined.

Lemma displayed_index_past_the_end_witness :
  (length (filterOutIgnoredMachines (machinesFrom 0 "u")) ≤ 1)%nat
  ∧ handleDocumentChange (doc "a.ts" "u") shownSecond =
      (Returns tt,
       mkWorld
         (<["a.ts" := mkCachedDocument "u" (batch (doc "a.ts" "u") (machinesFrom 0 "u"))]>
            (documentsCache shownSecond))
         (displayedMachine shownSecond)
         (sent shownSecond ++
          [extractionError
             (Some ("Cannot destructure property 'configError' of " +:+
                    "'extractionResults[displayedMachine.machineIndex]' as it is undefined."));
           sendDiagnostics "a.ts" []])).
Proof.
  split; [vm_compute; lia |].
  apply (displayed_index_past_the_end (doc "a.ts" "u") shownSecond (machinesFrom 0 "u") tt
           (mkDisplayedMachine "a.ts" 1)); first [reflexivity | vm_compute; lia].
Defined.

Lemma one_invalid_machine_is_isolated_witness :
  analyse "a.ts" 2 (Some (mkMachine "x" 2 noCall)) = Throws (JsError "Invalid config")
  ∧ ∃ results,
      documentsCache (handleDocumentChange (doc "a.ts" "utx") emptyWorld).2 !! "a.ts" =
        Some (mkCachedDocument "utx" results)
      ∧ length results = length (filterOutIgnoredMachines (machinesFrom 0 "utx"))
      ∧ ∀ i machine,
          filterOutIgnoredMachines (machinesFrom 0 "utx") !! i = Some machine ->
          ∃ r, results !! i = Some r ∧ machineResult r = machine ∧
               ((i = 2 ∧ configError r = Some (error_message (JsError "Invalid config"))
                 ∧ types r = None)
                ∨ (i ≠ 2 ∧ configError r = None ∧
                   (typed machine = true -> is_Some (types r)))).
Proof.
  split; [reflexivity |].
  apply (one_invalid_machine_is_isolated (doc "a.ts" "utx") emptyWorld
           (machinesFrom 0 "utx") tt 2 (Some (mkMachine "x" 2 noCall))
           (JsError "Invalid config")); try reflexivity.
  intros [| [| [| i]]] machine Hi Hm; simpl in Hm; try done;
    inversion Hm; subst; eexists; reflexivity.
Defined.

(** The displayed machine of [a.ts] is edited in the visual editor. *)
Lemma applyMachineEdits_patches_one_slot_witness :
  applyMachineEdits ["t"] shown =
    (Returns [mkReplaceEdit "a.ts" (point 0, point 1) "t"],
     (applyMachineEdits ["t"] shown).2)
  ∧ ∃ d cached slot machine modified file machineNodes extractedAgain,
      displayedMachine shown = Some d
      ∧ documentsCache shown !! displayed_uri d = Some cached
      ∧ extractionResults cached !! machineIndex d = Some slot
      ∧ machineResult slot = Some machine
      ∧ modify machine ["t"] = Returns modified
      ∧ getMachineNodesFromFile (editedText (documentText cached) modified)
          = Returns (file, machineNodes)
      ∧ getMachineExtractResult file (editedText (documentText cached) modified)
          (machineNodes !! machineIndex d) = Returns extractedAgain
      ∧ (applyMachineEdits ["t"] shown).2 =
          mkWorld
            (<[displayed_uri d :=
                 mkCachedDocument (documentText cached)
                   (<[machineIndex d :=
                        mkExtractionResult extractedAgain (types slot) (configError slot)]>
                      (extractionResults cached))]>
               (documentsCache shown))
            (displayedMachine shown) (sent shown)
      ∧ [mkReplaceEdit "a.ts" (point 0, point 1) "t"] =
          [mkReplaceEdit (displayed_uri d) (modified_range modified)
             (modified_newText modified)]
      ∧ (getMachineAtIndex (displayed_uri d) (machineIndex d)
           (applyMachineEdits ["t"] shown).2).1 =
          match extractedAgain with
          | Some again =>
              Returns (mkMachinePayload (toConfig again hashInlineImplementations)
                         (getLayoutComment again)
                         (getInlineImplementations again (documentText cached))
                         (set_from (getAllConds_named again)))
          | None =>
              Throws (JsError (machineNotFound (machineIndex d)
                                 (length (extractionResults cached))))
          end.
Proof.
  split; [vm_compute; reflexivity |].
  apply (@applyMachineEdits_patches_one_slot toy ["t"] shown
           [mkReplaceEdit "a.ts" (point 0, point 1) "t"]
           (@applyMachineEdits toy ["t"] shown).2).
  vm_compute; reflexivity.
Defined.

(** After the edit the entry pairs the re-extracted machine with the text
    from before the edit. *)
Example applyMachineEdits_mixed_view :
  (getMachineAtIndex "a.ts" 0 (applyMachineEdits ["t"] shown).2).1 =
    Returns (mkMachinePayload (Some "t"%char) None "u" []).
Proof. vm_compute; reflexivity. Qed.

Example add_go_once :
  applyEdits offsetAt sourceText
    (getTextEditsForImplementation before actions "go" sourceText)
  = "createMachine({}, { actions: { 'go': () => {}, } })".
Proof. vm_compute; reflexivity. Qed.

Example add_go_without_options :
  applyEdits offsetAt "createMachine({})"
    (getTextEditsForImplementation
       (mkMachine "u" 0 (mkMachineCallResult (Some (mkDefinitionResult (14, 16))) None))
       guards "isReady" "createMachine({})")
  = "createMachine({}, { guards: { 'isReady': () => {} } })".
Proof. vm_compute; reflexivity. Qed.

Example add_go_without_category :
  applyEdits offsetAt "createMachine({}, { guards: {} })"
    (getTextEditsForImplementation
       (mkMachine "u" 0
          (mkMachineCallResult (Some (mkDefinitionResult (14, 16)))
             (Some (mkOptionsResult (18, 32) None None
                      (Some (mkObjectResult (28, 30) []))))))
       services "load" "createMachine({}, { guards: {} })")
  = "createMachine({}, { services: { 'load': () => {} },  guards: {} })".
Proof. vm_compute; reflexivity. Qed.

(** With the machine extracted again from the edited text, which has the
    name, the action asked once more changes nothing. *)
Example add_go_again_after_extraction :
  status_of afterwards actions "go" = NamePresent
  ∧ applyEdits offsetAt "createMachine({}, { actions: { 'go': () => {}, } })"
      (getTextEditsForImplementation afterwards actions "go"
         "createMachine({}, { actions: { 'go': () => {}, } })")
    = "createMachine({}, { actions: { 'go': () => {}, } })".
Proof. split; vm_compute; reflexivity. Qed.

(** The name goes into the text as it is, between single quotes. *)
Example add_name_with_a_quote :
  applyEdits offsetAt sourceText
    (getTextEditsForImplementation before actions "it's" sourceText)
  = "createMachine({}, { actions: { 'it's': () => {}, } })".
Proof. vm_compute; reflexivity. Qed.

End Scenarios.

(** ** Facts about the client's helpers *)
Module ClientHelpersProofs.
Import Js Client ClientHelpers.

(** *** [removeExtension] *)

Lemma lastIndexOf_lower (s : string) (c : ascii) : (-1 <= lastIndexOf s c)%Z.
Proof.
  induction s as [|d s IH]; simpl; [lia |].
  destruct (0 <=? lastIndexOf s c)%Z eqn:Hi; [lia |].
  destruct (bool_decide (d = c)); lia.
Qed.

Lemma lastIndexOf_absent (s : string) (c : ascii) :
  occurs c s = false -> lastIndexOf s c = (-1)%Z.
Proof.
  induction s as [|d s IH]; simpl; [done |].
  intros [Hd Hs]%orb_false_elim. rewrite (IH Hs), Hd. done.
Qed.

Lemma lastIndexOf_last (stem rest : string) (c : ascii) :
  occurs c rest = false ->
  lastIndexOf (stem +:+ String c rest) c = Z.of_nat (String.length stem).
Proof.
  intros Hrest. induction stem as [|d stem IH].
  - change (lastIndexOf (String c rest) c = 0%Z). simpl.
    rewrite (lastIndexOf_absent _ _ Hrest). simpl. by rewrite bool_decide_true.
  - change (lastIndexOf (String d (stem +:+ String c rest)) c
            = Z.of_nat (S (String.length stem))).
    simpl lastIndexOf. rewrite IH.
    destruct (0 <=? Z.of_nat (String.length stem))%Z eqn:Hle; lia.
Qed.

Lemma substring_prefix (stem rest : string) :
  String.substring 0 (String.length stem) (stem +:+ rest) = stem.
Proof.
  induction stem as [|d stem IH].
  - by destruct rest.
  - change (String d (String.substring 0 (String.length stem) (stem +:+ rest))
            = String d stem).
    by rewrite IH.
Qed.

(** X16: the last extension is cut off; a name without a dot is cut down to
    nothing. *)
Theorem removeExtension_cuts_last_extension (stem ext : string) :
  occurs "."%char ext = false ->
  removeExtension (stem +:+ "." +:+ ext) = stem
  ∧ removeExtension ext = EmptyString.
Proof.
  intros Hext. unfold removeExtension, substr_0. split.
  - change (stem +:+ "." +:+ ext) with (stem +:+ String "."%char ext).
    rewrite (lastIndexOf_last _ _ _ Hext), Nat2Z.id. apply substring_prefix.
  - rewrite (lastIndexOf_absent _ _ Hext). simpl. by destruct ext.
Qed.

(** *** [resolveUriToFilePrefix] *)

(** X17: the result always has the [file://] prefix, and resolving it again
    changes nothing. *)
Theorem resolveUriToFilePrefix_idempotent (uri : string) :
  startsWith (resolveUriToFilePrefix uri) "file://" = true
  ∧ resolveUriToFilePrefix (resolveUriToFilePrefix uri) = resolveUriToFilePrefix uri.
Proof.
  assert (Hpre : startsWith (resolveUriToFilePrefix uri) "file://" = true).
  { unfold resolveUriToFilePrefix.
    destruct (startsWith uri "file://") eqn:Hs; simpl; [done |].
    unfold startsWith. by destruct uri. }
  split; [done |].
  unfold resolveUriToFilePrefix at 1. by rewrite Hpre.
Qed.

(** *** [isCursorInPosition] *)

(** X15: for a range that is not backwards, the test accepts the positions of
    the range, except those of the first line past the end column, and also
    the positions after the end of the range on its last line and on the
    line below. *)
Theorem isCursorInPosition_against_range (l : Location) (c : Cursor) :
  well_formed l ->
  isCursorInPosition (Some l) c = Some true
  ↔ (contains l c
     ∧ ¬ (cursor_line c = point_line (loc_start l) - 1
          ∧ point_column (loc_end l) < cursor_character c)%Z)
    ∨ ((point_line (loc_start l) - 1 < cursor_line c)%Z
       ∧ (cursor_line c = point_line (loc_end l)
          ∨ (cursor_line c = point_line (loc_end l) - 1
             ∧ point_column (loc_end l) < cursor_character c))%Z).
Proof.
  unfold well_formed, contains, isCursorInPosition.
  destruct l as [[sl sc] [el ec]], c as [L C]; simpl. intros Hwf.
  destruct (sl - 1 =? L)%Z eqn:Hsame.
  - apply Z.eqb_eq in Hsame. split.
    + intros [= [H1 H2]%andb_prop]. apply Z.leb_le in H1, H2. left. lia.
    + intros Hin. f_equal. apply andb_true_intro. rewrite !Z.leb_le. lia.
  - apply Z.eqb_neq in Hsame. split.
    + intros [= [H1 H2]%andb_prop]. apply Z.leb_le in H1, H2.
      destruct (decide (L = el)); [right; lia |].
      destruct (decide (L = el - 1 ∧ ec < C)%Z); [right; lia | left; lia].
    + intros Hin. f_equal. apply andb_true_intro. rewrite !Z.leb_le. lia.
Qed.

Lemma isCursorInPosition_against_range_witness :
  well_formed (mkLocation (mkPoint 3 4) (mkPoint 5 1))
  ∧ (isCursorInPosition (Some (mkLocation (mkPoint 3 4) (mkPoint 5 1))) (mkCursor 5 40)
       = Some true
     ↔ (contains (mkLocation (mkPoint 3 4) (mkPoint 5 1)) (mkCursor 5 40)
        ∧ ¬ (5 = 3 - 1 ∧ 1 < 40)%Z)
       ∨ ((3 - 1 < 5)%Z ∧ (5 = 5 ∨ (5 = 5 - 1 ∧ 1 < 40))%Z)).
Proof.
  split; [left; simpl; lia |].
  apply (isCursorInPosition_against_range
           (mkLocation (mkPoint 3 4) (mkPoint 5 1)) (mkCursor 5 40)).
  left; simpl; lia.
Defined.

Lemma removeExtension_cuts_last_extension_witness :
  occurs "."%char "ts" = false
  ∧ removeExtension ("machine.test" +:+ "." +:+ "ts") = "machine.test"
  ∧ removeExtension "ts" = EmptyString.
Proof.
  split; [reflexivity |].
  apply (removeExtension_cuts_last_extension "machine.test" "ts"). reflexivity.
Defined.

(** *** The path of the generated file *)

Lemma is_script_extension_longer (c : ascii) (stem ext : string) :
  ext ∈ [".ts"; ".tsx"; ".js"; ".jsx"] ->
  is_script_extension (String c (stem +:+ ext)) = false.
Proof.
  intros Hext.
  assert (Hcases : ext = ".ts" ∨ ext = ".tsx" ∨ ext = ".js" ∨ ext = ".jsx").
  { rewrite !elem_of_cons in Hext. rewrite elem_of_nil in Hext. tauto. }
  destruct stem as [|d1 [|d2 [|d3 [|d4 stem]]]];
    destruct Hcases as [-> | [-> | [-> | ->]]]; simpl;
    rewrite ?andb_false_r; try reflexivity;
    destruct (bool_decide (c = "."%char)); simpl; try reflexivity;
    try (destruct (in_class d1); simpl; try reflexivity);
    try (destruct (bool_decide (d2 = "s"%char)); simpl; try reflexivity);
    destruct stem; reflexivity.
Qed.

Lemma typegenUri_cons (c : ascii) (uri : string) :
  typegenUri (String c uri) =
    if is_script_extension (String c uri) then ".typegen.ts"
    else String c (typegenUri uri).
Proof. reflexivity. Qed.

(** X18: a script extension is replaced by [.typegen.ts], the stem is kept. *)
Theorem typegenUri_replaces_script_extension (stem ext : string) :
  ext ∈ [".ts"; ".tsx"; ".js"; ".jsx"] ->
  typegenUri (stem +:+ ext) = stem +:+ ".typegen.ts".
Proof.
  intros Hext. induction stem as [|c stem IH].
  - rewrite !elem_of_cons in Hext. rewrite elem_of_nil in Hext.
    destruct Hext as [-> | [-> | [-> | [-> | []]]]]; reflexivity.
  - change (typegenUri (String c (stem +:+ ext)) = String c (stem +:+ ".typegen.ts")).
    by rewrite typegenUri_cons, (is_script_extension_longer _ _ _ Hext), IH.
Qed.

Lemma typegenUri_replaces_script_extension_witness :
  ".tsx" ∈ [".ts"; ".tsx"; ".js"; ".jsx"]
  ∧ typegenUri ("file:///src/app.machine" +:+ ".tsx") = "file:///src/app.machine" +:+ ".typegen.ts".
Proof.
  split; [apply elem_of_cons; right; apply elem_of_cons; by left |].
  apply (typegenUri_replaces_script_extension "file:///src/app.machine" ".tsx").
  apply elem_of_cons; right; apply elem_of_cons; by left.
Defined.

Lemma length_append (a b : string) :
  String.length (a +:+ b) = String.length a + String.length b.
Proof.
  induction a as [|c a IH]; [done |].
  change (S (String.length (a +:+ b)) = S (String.length a + String.length b)).
  by rewrite IH.
Qed.

(** X19: [createTypegenFile] cuts the extension off the path and adds
    [.typegen.ts]; for a path without extension nothing of the path is
    kept. *)
Theorem typegenPath_of_extension (stem ext : string) :
  typegenPath (stem +:+ ext) ext =
    match ext with
    | EmptyString => ".typegen.ts"
    | String _ _ => stem +:+ ".typegen.ts"
    end.
Proof.
  unfold typegenPath, slice_0_minus. destruct ext as [|c ext]; [done |].
  change (String.length (String c ext)) with (S (String.length ext)).
  rewrite length_append.
  replace (String.length stem + String.length (String c ext) - S (String.length ext))
    with (String.length stem) by (simpl; lia).
  by rewrite substring_prefix.
Qed.

(** *** Missing implementations *)





(** *** The inline-invocation pattern *)

Lemma match_here_lits (p : string) (rest : list atom) (s : string) :
  match_here (lits p ++ rest) s = true
  ↔ ∃ s', s = p +:+ s' ∧ match_here rest s' = true.
Proof.
  revert s. induction p as [|c p IH]; intros s.
  - simpl. split; [eauto | by intros (s' & -> & Hs')].
  - change (lits (String c p) ++ rest)%list with (Lit c :: (lits p ++ rest))%list.
    destruct s as [|d s].
    + simpl. split; [done | by intros (s' & [=] & _)].
    + change (match_here (Lit c :: (lits p ++ rest)) (String d s))
        with (bool_decide (c = d) && match_here (lits p ++ rest) s).
      rewrite andb_true_iff, bool_decide_eq_true, IH. split.
      * intros (-> & s' & -> & Hs'). by exists s'.
      * intros (s' & Heq & Hs').
        change (String c p +:+ s') with (String c (p +:+ s')) in Heq.
        injection Heq as -> ->. eauto.
Qed.

Lemma match_here_DotStar (rest : list atom) (s : string) :
  match_here (DotStar :: rest) s =
    match_here rest s ||
    match s with
    | String d s' => negb (is_line_terminator d) && match_here (DotStar :: rest) s'
    | EmptyString => false
    end.
Proof. by destruct s. Qed.

Lemma match_here_any (rest : list atom) (s : string) :
  match_here (DotStar :: rest) s = true
  ↔ ∃ b s', s = b +:+ s' ∧ one_line b = true ∧ match_here rest s' = true.
Proof.
  induction s as [|d s IH]; rewrite match_here_DotStar.
  - rewrite orb_false_r. split.
    + intros Hs. by exists EmptyString, EmptyString.
    + intros (b & s' & Heq & _ & Hs'). destruct b; [| done].
      change (EmptyString = s') in Heq. by subst.
  - rewrite orb_true_iff, andb_true_iff, IH. split.
    + intros [Hs | (Hd & b & s' & -> & Hb & Hs')].
      * by exists EmptyString, (String d s).
      * exists (String d b), s'. repeat split; [| done].
        simpl. by rewrite Hd, Hb.
    + intros (b & s' & Heq & Hb & Hs'). destruct b as [|e b].
      * change (String d s = s') in Heq. subst. by left.
      * change (String d s = String e (b +:+ s')) in Heq. injection Heq as -> ->.
        simpl in Hb. apply andb_prop in Hb as [He Hb]. right. eauto 10.
Qed.

Lemma test_somewhere (p : list atom) (s : string) :
  test p s = true ↔ ∃ a s', s = a +:+ s' ∧ match_here p s' = true.
Proof.
  induction s as [|d s IH]; simpl.
  - rewrite orb_false_r. split.
    + intros Hs. by exists EmptyString, EmptyString.
    + intros (a & s' & Heq & Hs'). destruct a; [| done].
      change (EmptyString = s') in Heq. by subst.
  - rewrite orb_true_iff, IH. split.
    + intros [Hs | (a & s' & -> & Hs')].
      * by exists EmptyString, (String d s).
      * by exists (String d a), s'.
    + intros (a & s' & Heq & Hs'). destruct a as [|e a].
      * change (String d s = s') in Heq. subst. by left.
      * change (String d s = String e (a +:+ s')) in Heq. injection Heq as -> ->.
        right. eauto.
Qed.

(** X12: an event name is taken for an inline invocation exactly when it
    contains [done.invoke.], later [:invocation[] and later []], with no
    line break between them. *)
Theorem inlineInvocationName_matches (event : string) :
  test inlineInvocationName event = true
  ↔ ∃ a b c d,
      event = a +:+ "done.invoke." +:+ b +:+ ":invocation[" +:+ c +:+ "]" +:+ d
      ∧ one_line b = true ∧ one_line c = true.
Proof.
  unfold inlineInvocationName. rewrite test_somewhere. split.
  - intros (a & s1 & -> & H1).
    apply match_here_lits in H1 as (s2 & -> & H2).
    apply match_here_any in H2 as (b & s3 & -> & Hb & H3).
    apply match_here_lits in H3 as (s4 & -> & H4).
    apply match_here_any in H4 as (c & s5 & -> & Hc & H5).
    apply (match_here_lits "]" []) in H5 as (d & -> & _).
    by exists a, b, c, d.
  - intros (a & b & c & d & -> & Hb & Hc).
    exists a, ("done.invoke." +:+ b +:+ ":invocation[" +:+ c +:+ "]" +:+ d).
    split; [done |].
    apply match_here_lits. eexists. split; [done |].
    apply match_here_any. exists b. eexists. split; [done |]. split; [done |].
    apply match_here_lits. eexists. split; [done |].
    apply match_here_any. exists c. eexists. split; [done |]. split; [done |].
    apply (match_here_lits "]" []). by exists d.
Qed.

(** *** [modifyInvokesRecursively] *)

Lemma stateNode_induction (P : stateNode -> Prop) :
  (∀ invoke states, Forall (fun child => P child.2) states -> P (StateNode invoke states)) ->
  ∀ state, P state.
Proof.
  intros Hnode. fix IH 1. intros [invoke states]. apply Hnode.
  induction states as [|[k child] states IHstates]; constructor; [apply IH | exact IHstates].
Qed.

Lemma modifyItem_settled (item item' : invokeItem) :
  modifyItem item = Returns item' -> settled modifyItem anonymousItem item item'.
Proof.
  unfold settled. destruct item as [[[s |] |] | s]; simpl.
  - destruct (bool_decide (s = "anonymous")) eqn:Hs; intros [= <-]; simpl.
    + by repeat split.
    + by rewrite Hs.
  - intros [= <-]. by repeat split.
  - intros [= <-]. by repeat split.
  - done.
Qed.

Lemma modifyItems_settled (items items' : list invokeItem) :
  modifyItems items = Returns items' ->
  settled modifyItems (existsb anonymousItem) items items'.
Proof.
  unfold settled. revert items'. induction items as [|item items IH]; intros items'; simpl.
  - by intros [= <-].
  - destruct (modifyItem item) as [item1 |] eqn:Hitem; [| done].
    destruct (modifyItems items) as [items1 |] eqn:Hitems; [| done].
    intros [= <-]. destruct (modifyItem_settled _ _ Hitem) as (Ha & Hm & Hsame).
    destruct (IH _ eq_refl) as (Has & Hms & Hsames). simpl.
    rewrite Ha, Has, Hm, Hms. repeat split.
    intros [Hi His]%orb_false_elim. by rewrite Hsame, Hsames.
Qed.

Lemma modifyInvoke_settled (invoke invoke' : invokeField) :
  modifyInvoke invoke = Returns invoke' ->
  settled modifyInvoke anonymousInvoke invoke invoke'.
Proof.
  unfold settled. destruct invoke as [| item | items]; simpl.
  - by intros [= <-].
  - assert (Hitem : ∀ item1, modifyItem item = Returns item1 ->
              anonymousInvoke (InvokeOne item1) = false
              ∧ modifyInvoke (InvokeOne item1) = Returns (InvokeOne item1)
              ∧ (anonymousItem item = false -> InvokeOne item1 = InvokeOne item)).
    { intros item1 H1. destruct (modifyItem_settled _ _ H1) as (Ha & Hm & Hsame).
      simpl. split; [done |]. split; [| by intros ->%Hsame].
      destruct item1 as [src | [|c s]]; [by rewrite Hm | done | by rewrite Hm]. }
    destruct item as [src | [|c s]].
    + destruct (modifyItem (InvokeObject src)) as [item1 |] eqn:H1; [| done].
      intros [= <-]. by apply Hitem.
    + by intros [= <-].
    + done.
  - destruct (modifyItems items) as [items1 |] eqn:H1; [| done].
    intros [= <-]. destruct (modifyItems_settled _ _ H1) as (Ha & Hm & Hsame).
    simpl. rewrite Hm. repeat split; [done |]. by intros ->%Hsame.
Qed.

Lemma modifyInvokesRecursively_node (invoke : invokeField) (states : list (string * stateNode)) :
  modifyInvokesRecursively (StateNode invoke states) =
    match modifyInvoke invoke with
    | Throws e => Throws e
    | Returns invoke' =>
        match eachChild states with
        | Throws e => Throws e
        | Returns states' => Returns (StateNode invoke' states')
        end
    end.
Proof. reflexivity. Qed.

Lemma hasAnonymous_node (invoke : invokeField) (states : list (string * stateNode)) :
  hasAnonymous (StateNode invoke states) = anonymousInvoke invoke || anyChild states.
Proof. reflexivity. Qed.

Lemma modifyInvokesRecursively_settled (state : stateNode) :
  ∀ state', modifyInvokesRecursively state = Returns state' ->
            settled modifyInvokesRecursively hasAnonymous state state'.
Proof.
  induction state as [invoke states IH] using stateNode_induction. intros state'.
  rewrite modifyInvokesRecursively_node.
  destruct (modifyInvoke invoke) as [invoke1 |] eqn:Hinvoke; [| done].
  destruct (eachChild states) as [states1 |] eqn:Hstates; [| done].
  intros [= <-]. destruct (modifyInvoke_settled _ _ Hinvoke) as (Ha & Hm & Hsame).
  assert (Hchildren : settled eachChild anyChild states states1).
  { clear Hinvoke Ha Hm Hsame. revert states1 Hstates.
    induction IH as [|[k child] states Hchild _ IHstates]; intros states1; simpl.
    - by intros [= <-].
    - destruct (modifyInvokesRecursively child) as [child1 |] eqn:Hc; [| done].
      destruct (eachChild states) as [states2 |] eqn:Hs; [| done].
      intros [= <-]. destruct (Hchild _ Hc) as (Hca & Hcm & Hcsame).
      destruct (IHstates _ eq_refl) as (Hsa & Hsm & Hssame).
      unfold settled. simpl. fold anyChild. fold eachChild.
      rewrite Hca, Hsa, Hcm, Hsm. repeat split.
      intros [H1 H2]%orb_false_elim. by rewrite Hcsame, Hssame. }
  destruct Hchildren as (Hca & Hcm & Hcsame). unfold settled.
  rewrite modifyInvokesRecursively_node, !hasAnonymous_node, Ha, Hca, Hm, Hcm.
  repeat split. intros [H1 H2]%orb_false_elim. by rewrite Hsame, Hcsame.
Qed.

(** X14: when [modifyInvokesRecursively] returns, no invoke of the config has the
    source [anonymous] any more, a second run changes nothing, and a config
    that had none is returned as it was. *)
Theorem modifyInvokesRecursively_removes_anonymous (state state' : stateNode) :
  modifyInvokesRecursively state = Returns state' ->
  hasAnonymous state' = false
  ∧ modifyInvokesRecursively state' = Returns state'
  ∧ (hasAnonymous state = false -> state' = state).
Proof. apply modifyInvokesRecursively_settled. Qed.

Lemma modifyInvokesRecursively_removes_anonymous_witness :
  modifyInvokesRecursively sampleConfig = Returns sampleConfigAfter
  ∧ hasAnonymous sampleConfigAfter = false
  ∧ modifyInvokesRecursively sampleConfigAfter = Returns sampleConfigAfter
  ∧ (hasAnonymous sampleConfig = false -> sampleConfigAfter = sampleConfig).
Proof.
  split; [reflexivity |].
  apply (modifyInvokesRecursively_removes_anonymous sampleConfig sampleConfigAfter).
  reflexivity.
Defined.

End ClientHelpersProofs.

(** ** Facts about the other requests of the language server *)
Module ServerRequestsProofs.
Import Js Server ServerRequests ServerProofs.

Section SettingsCache.
Context {GlobalSettings : Type}.
Implicit Types (st : SettingsState GlobalSettings).

(** X11: the settings of a document are asked for once: a second call answers
    with the same promise and asks nothing.  After the document was closed,
    or the configuration changed, the next call asks again (when the client
    has the configuration capability). *)
Theorem getDocumentSettings_asks_once resource st defaultSettings changed :
  getDocumentSettings resource (getDocumentSettings resource st).2
    = getDocumentSettings resource st
  ∧ requested (getDocumentSettings resource (closeSettings resource st)).2
    = (requested st ++ if hasConfigurationCapability st then [resource] else [])%list
  ∧ requested (getDocumentSettings resource (changeConfiguration defaultSettings changed st)).2
    = (requested st ++ if hasConfigurationCapability st then [resource] else [])%list.
Proof.
  unfold getDocumentSettings, closeSettings, changeConfiguration.
  destruct st as [[|] global cache asked]; simpl.
  - split; [| split].
    + destruct (cache !! resource) as [p |] eqn:Hp; simpl.
      * by rewrite Hp.
      * by rewrite lookup_insert_eq.
    + by rewrite lookup_delete_eq.
    + by rewrite lookup_empty.
  - by rewrite !app_nil_r.
Qed.
End SettingsCache.

Section MoreReconciliation.
Context `{Env}.
Implicit Types (w : World) (textDocument : TextDocument).

Lemma sends_only_silent {A} kind (m : io A) :
  (∀ w, ∃ o, m w = (o, w)) -> sends_only kind m.
Proof.
  intros Hm [cache displayed out]. destruct (Hm (mkWorld cache displayed out)) as [o ->].
  exists o, []. simpl. by rewrite app_nil_r.
Qed.

Lemma sends_only_ret {A} kind (a : A) : sends_only kind (ret a).
Proof. apply sends_only_silent. intros w. by eexists. Qed.

Lemma sends_only_throw {A} kind (e : thrown) : sends_only kind (@throw _ A e).
Proof. apply sends_only_silent. intros w. by eexists. Qed.

Lemma sends_only_call {A} kind (o : outcome A) : sends_only kind (call o).
Proof. apply sends_only_silent. intros w. by eexists. Qed.

Lemma sends_only_send kind (m : message) : kind m = true -> sends_only kind (send m).
Proof. intros Hm w. exists (Returns tt), [m]. simpl. by rewrite Hm. Qed.

Lemma sends_only_bind {A B} kind (m : io A) (k : A -> io B) :
  sends_only kind m -> (∀ a, sends_only kind (k a)) -> sends_only kind (bind m k).
Proof.
  intros Hm Hk w. unfold bind. destruct (Hm w) as (o & out & -> & Hout).
  destruct o as [a | e]; [| by exists (Throws e), out].
  destruct (Hk a (mkWorld (documentsCache w) (displayedMachine w) (sent w ++ out)%list))
    as (o' & out' & -> & Hout'). simpl.
  exists o', (out ++ out')%list. rewrite app_assoc. split; [done |].
  rewrite forallb_app. by rewrite Hout, Hout'.
Qed.

Ltac sends_only :=
  repeat first
    [ apply sends_only_ret | apply sends_only_throw | apply sends_only_call
    | apply sends_only_send; reflexivity
    | apply sends_only_bind; [| intros ?]
    | match goal with
      | |- sends_only _ (match ?x with _ => _ end) => destruct x
      | |- sends_only _ (if ?b then _ else _) => destruct b
      end ].

Lemma displayedStep_shows text previous results index :
  sends_only about_displayed (displayedStep text previous results index).
Proof.
  unfold displayedStep, element, defined, mbind, mret, io_bind, io_ret. sends_only.
Qed.

Lemma recover_sends textDocument e w :
  recover textDocument e w =
    (Returns tt,
     mkWorld (documentsCache w) (displayedMachine w)
       (sent w ++
        (if is_displayed w (uri textDocument)
         then [extractionError (Some (error_message e))] else []) ++
        [sendDiagnostics (uri textDocument) []])%list).
Proof.
  unfold recover, is_displayed. step.
  destruct w as [cache [d |] out]; simpl; [destruct (bool_decide _); simpl |];
    by rewrite <- ?app_assoc.
Qed.

Lemma reconcile_extractor_throws textDocument previous w e :
  extractMachinesFromFile (getText textDocument) = Throws e ->
  reconcile textDocument previous w = (Throws e, w).
Proof. intros Hx. unfold reconcile. step. by rewrite Hx. Qed.

Lemma reconcile_settings_reject textDocument previous w extracted e :
  extractMachinesFromFile (getText textDocument) = Returns (Some extracted) ->
  Server.getDocumentSettings (uri textDocument) = Throws e ->
  reconcile textDocument previous w = (Throws e, w).
Proof. intros Hx Hs. unfold reconcile. step. by rewrite Hx, Hs. Qed.

(** X1: the messages of a pass, in order: notifications about the displayed
    machine (none when the document is not the displayed one), then at most
    one batch of diagnostics for the document, then at most one
    [typesUpdated], which carries the types of the batch just cached. *)
Theorem pass_sends_in_order textDocument w :
  ∃ shown tail,
    sent (handleDocumentChange textDocument w).2 = (sent w ++ shown ++ tail)%list
    ∧ forallb about_displayed shown = true
    ∧ (is_displayed w (uri textDocument) = true ∨ shown = [])
    ∧ published (handleDocumentChange textDocument w).2 (uri textDocument) tail.
Proof.
  assert (Hrecover : ∀ e w1 shown,
    displayedMachine w1 = displayedMachine w ->
    sent w1 = (sent w ++ shown)%list ->
    forallb about_displayed shown = true ->
    (is_displayed w (uri textDocument) = true ∨ shown = []) ->
    ∃ shown' tail,
      sent (recover textDocument e w1).2 = (sent w ++ shown' ++ tail)%list
      ∧ forallb about_displayed shown' = true
      ∧ (is_displayed w (uri textDocument) = true ∨ shown' = [])
      ∧ published (recover textDocument e w1).2 (uri textDocument) tail).
  { intros e w1 shown Hd Hsent Hshown Hwhen. rewrite recover_sends. simpl.
    assert (Hsame : is_displayed w1 (uri textDocument) = is_displayed w (uri textDocument))
      by (unfold is_displayed; by rewrite Hd).
    rewrite Hsame, Hsent.
    exists (shown ++ if is_displayed w (uri textDocument)
                     then [extractionError (Some (error_message e))] else [])%list,
      [sendDiagnostics (uri textDocument) []].
    split; [by rewrite <- !app_assoc |].
    split; [rewrite forallb_app, Hshown; by destruct (is_displayed _ _) |].
    split; [| right; left; by eexists].
    destruct (is_displayed w (uri textDocument)); [by left |].
    destruct Hwhen as [? | ->]; [done | by right]. }
  unfold handleDocumentChange. step.
  destruct (extractMachinesFromFile (getText textDocument)) as [[extracted |] | e] eqn:Hx.
  - destruct (Server.getDocumentSettings (uri textDocument)) as [settings | e] eqn:Hs.
    + rewrite (reconcile_extracted _ _ _ _ _ Hx Hs). unfold bind.
      set (w1 := mkWorld _ _ _).
      assert (Hstep : ∃ o shown,
        match displayedMachine w with
        | Some d =>
            if bool_decide (displayed_uri d = uri textDocument)
            then displayedStep (getText textDocument) (documentsCache w !! uri textDocument)
                   (batch textDocument extracted) (machineIndex d)
            else ret true
        | None => ret true
        end w1 = (o, mkWorld (documentsCache w1) (displayedMachine w) (sent w ++ shown)%list)
        ∧ forallb about_displayed shown = true
        ∧ (is_displayed w (uri textDocument) = true ∨ shown = [])).
      { unfold is_displayed.
        destruct (displayedStep_shows (getText textDocument)
                    (documentsCache w !! uri textDocument)
                    (batch textDocument extracted)
                    (default 0 (machineIndex <$> displayedMachine w)) w1)
          as (o & shown & Hrun & Hshown).
        subst w1. simpl in *.
        destruct (displayedMachine w) as [d |]; simpl in *.
        - destruct (bool_decide (displayed_uri d = uri textDocument)).
          + exists o, shown. by rewrite Hrun; eauto.
          + exists (Returns true), []. rewrite app_nil_r. eauto.
        - exists (Returns true), []. rewrite app_nil_r. eauto. }
      destruct Hstep as (o & shown & -> & Hshown & Hwhen).
      destruct o as [[|] | e].
      * destruct (getDiagnostics (omap id (filterOutIgnoredMachines extracted))
                    textDocument settings) as [diagnostics | e] eqn:Hd.
        -- rewrite (publish_returns _ _ _ _ _ _ _ Hd). simpl.
           exists shown. eexists. split; [by rewrite <- app_assoc |].
           split; [done |]. split; [done |].
           destruct (negb _ && negb _); [right; right | right; left; by eexists].
           exists diagnostics. eexists. split; [apply lookup_insert_eq | done].
        -- rewrite (publish_throws _ _ _ _ _ _ _ Hd). by apply (Hrecover _ _ shown).
      * simpl. exists shown, []. rewrite app_nil_r. repeat split; [done | done |]. by left.
      * by apply (Hrecover _ _ shown).
    + rewrite (reconcile_settings_reject _ _ _ _ _ Hx Hs).
      apply (Hrecover e w []); [done | by rewrite app_nil_r | done | by right].
  - rewrite (reconcile_nothing _ _ _ Hx). simpl. exists [], [].
    rewrite !app_nil_r. repeat split; [by right | by left].
  - rewrite (reconcile_extractor_throws _ _ _ _ Hx).
    apply (Hrecover e w []); [done | by rewrite app_nil_r | done | by right].
Qed.

Lemma after_the_cache_only_sends textDocument settings extracted previous displayed :
  only_sends
    (bind
       match displayed with
       | Some d =>
           if bool_decide (displayed_uri d = uri textDocument)
           then displayedStep (getText textDocument) previous
                  (batch textDocument extracted) (machineIndex d)
           else ret true
       | None => ret true
       end
       (fun proceed : bool =>
          if proceed
          then publish textDocument settings (filterOutIgnoredMachines extracted)
                 (typegenDataOf (batch textDocument extracted)) previous
          else ret tt)).
Proof.
  apply only_sends_bind.
  - destruct displayed as [d |]; [| apply only_sends_ret].
    destruct (bool_decide _); [apply only_sends_displayedStep | apply only_sends_ret].
  - intros [|]; [apply only_sends_publish | apply only_sends_ret].
Qed.

(** X2: a pass never throws, never changes the displayed machine and never
    touches the cache entry of another document. *)
Theorem pass_keeps_the_rest textDocument w :
  (handleDocumentChange textDocument w).1 = Returns tt
  ∧ displayedMachine (handleDocumentChange textDocument w).2 = displayedMachine w
  ∧ delete (uri textDocument) (documentsCache (handleDocumentChange textDocument w).2)
    = delete (uri textDocument) (documentsCache w).
Proof.
  split; [apply handleDocumentChange_returns |].
  assert (Hcatch : ∀ (o : outcome unit) w1,
    displayedMachine w1 = displayedMachine w ->
    delete (uri textDocument) (documentsCache w1)
      = delete (uri textDocument) (documentsCache w) ->
    let w' := match o with
              | Returns a => (Returns a, w1)
              | Throws e => recover textDocument e w1
              end.2 in
    displayedMachine w' = displayedMachine w
    ∧ delete (uri textDocument) (documentsCache w')
      = delete (uri textDocument) (documentsCache w)).
  { intros [a | e] w1 Hd Hc; simpl; [done |].
    destruct (only_sends_recover textDocument e w1) as (Hc' & Hd' & _).
    by rewrite Hc', Hd'. }
  unfold handleDocumentChange. step.
  destruct (extractMachinesFromFile (getText textDocument)) as [[extracted |] | e] eqn:Hx.
  - destruct (Server.getDocumentSettings (uri textDocument)) as [settings | e] eqn:Hs.
    + rewrite (reconcile_extracted _ _ _ _ _ Hx Hs).
      set (w1 := mkWorld _ _ _).
      destruct (after_the_cache_only_sends textDocument settings extracted
                  (documentsCache w !! uri textDocument) (displayedMachine w) w1)
        as (Hc & Hd & _).
      destruct (bind _ _ w1) as [o w2]. simpl in Hc, Hd.
      apply (Hcatch o w2); [done |]. rewrite Hc. apply delete_insert_eq.
    + rewrite (reconcile_settings_reject _ _ _ _ _ Hx Hs). by apply (Hcatch (Throws e) w).
  - by rewrite (reconcile_nothing _ _ _ Hx).
  - rewrite (reconcile_extractor_throws _ _ _ _ Hx). by apply (Hcatch (Throws e) w).
Qed.

(** X3: when the document does not parse (the extractor throws), the cached
    batch stays as it is, but, unlike for a document in which nothing is
    found, the diagnostics are cleared; the error goes to the visual editor
    when the document is the displayed one. *)
Theorem extractor_throws_clears_diagnostics textDocument w e :
  extractMachinesFromFile (getText textDocument) = Throws e ->
  handleDocumentChange textDocument w =
    (Returns tt,
     mkWorld (documentsCache w) (displayedMachine w)
       (sent w ++
        (if is_displayed w (uri textDocument)
         then [extractionError (Some (error_message e))] else []) ++
        [sendDiagnostics (uri textDocument) []])%list).
Proof.
  intros Hx. unfold handleDocumentChange. step.
  rewrite (reconcile_extractor_throws _ _ _ _ Hx). apply recover_sends.
Qed.

Lemma extractionResult_machineResult uri i machine :
  machineResult (extractionResult uri i machine) = machine.
Proof.
  unfold extractionResult. destruct (analyse uri i machine) as [r |] eqn:Ha; [| done].
  by destruct (extractionResult_returns _ _ _ _ Ha) as (_ & Hm & _).
Qed.

(** X5: after a pass that cached a batch, [getMachineAtIndex] answers with the
    machine extracted at that index and the new text, whether or not the
    machine has a config error and however the pass ended. *)
Theorem pass_then_getMachineAtIndex textDocument w extracted settings i machine :
  extractMachinesFromFile (getText textDocument) = Returns (Some extracted) ->
  Server.getDocumentSettings (uri textDocument) = Returns settings ->
  filterOutIgnoredMachines extracted !! i = Some (Some machine) ->
  (getMachineAtIndex (uri textDocument) i (handleDocumentChange textDocument w).2).1 =
    Returns (mkMachinePayload (toConfig machine hashInlineImplementations)
               (getLayoutComment machine)
               (getInlineImplementations machine (getText textDocument))
               (set_from (getAllConds_named machine))).
Proof.
  intros Hx Hs Hi.
  rewrite (getMachineAtIndex_found (uri textDocument) i _
             (mkCachedDocument (getText textDocument) (batch textDocument extracted))
             (extractionResult (uri textDocument) i (Some machine)) machine); [done | | |].
  - rewrite (handleDocumentChange_caches _ _ _ _ Hx Hs). apply lookup_insert_eq.
  - simpl. by rewrite batch_lookup, Hi.
  - apply extractionResult_machineResult.
Qed.

Lemma displayedStep_unchanged text cachedText results index current w :
  results !! index = Some current ->
  truthy_opt (configError current) = false ->
  is_Some (machineResult current) ->
  displayedStep text (Some (mkCachedDocument cachedText results)) results index w
    = (Returns true, w).
Proof.
  intros Hi Ht [machine Hm]. unfold displayedStep. step. rewrite Hi. simpl.
  rewrite Ht. simpl. rewrite ?Ht, Hm. simpl.
  destruct (toConfig machine plainConfig); [| done].
  by rewrite bool_decide_true.
Qed.

(** X4: a pass over a text whose batch is already cached sends the diagnostics
    and nothing else: no [typesUpdated], no update of the displayed machine. *)
Theorem unchanged_text_sends_only_diagnostics textDocument w extracted settings diagnostics
    cachedText :
  extractMachinesFromFile (getText textDocument) = Returns (Some extracted) ->
  Server.getDocumentSettings (uri textDocument) = Returns settings ->
  getDiagnostics (omap id (filterOutIgnoredMachines extracted)) textDocument settings
    = Returns diagnostics ->
  documentsCache w !! uri textDocument
    = Some (mkCachedDocument cachedText (batch textDocument extracted)) ->
  displayed_resolves w (uri textDocument) (batch textDocument extracted) = true ->
  emitted (handleDocumentChange textDocument) w
    = [sendDiagnostics (uri textDocument) diagnostics].
Proof.
  intros Hx Hs Hdiag Hcached Hres. unfold emitted, handleDocumentChange. step.
  rewrite (reconcile_extracted _ _ _ _ _ Hx Hs). unfold bind. rewrite Hcached.
  set (w1 := mkWorld _ _ _).
  assert (Hstep :
    match displayedMachine w with
    | Some d =>
        if bool_decide (displayed_uri d = uri textDocument)
        then displayedStep (getText textDocument)
               (Some (mkCachedDocument cachedText (batch textDocument extracted)))
               (batch textDocument extracted) (machineIndex d)
        else ret true
    | None => ret true
    end w1 = (Returns true, w1)).
  { unfold displayed_resolves in Hres.
    destruct (displayedMachine w) as [d |]; [| done].
    destruct (bool_decide (displayed_uri d = uri textDocument)); [| done].
    destruct (batch textDocument extracted !! machineIndex d) as [current |] eqn:Hcur;
      [| done].
    apply andb_prop in Hres as [Hres _]. apply andb_prop in Hres as [Hok Hm].
    apply negb_true_iff in Hok. apply bool_decide_eq_true in Hm.
    by apply (displayedStep_unchanged _ _ _ _ current). }
  rewrite Hstep, (publish_returns _ _ _ _ _ _ _ Hdiag). simpl.
  rewrite drop_app_length.
  assert (Hsame : bool_decide
            (Some (inSync (batch textDocument extracted))
             = Some (map data (filter areTypesWritable
                                 (typegenDataOf (batch textDocument extracted))))) = true)
    by (by apply bool_decide_eq_true).
  rewrite Hsame. by rewrite andb_false_r.
Qed.
End MoreReconciliation.

Section MoreRequests.
Context `{Env}.
Implicit Types (w : World).

(** X6: [getMachineAtIndex] never changes the state, and it answers exactly
    when the document is cached and the slot at the index has a machine
    result. *)
Theorem getMachineAtIndex_answers_iff uri index w :
  (getMachineAtIndex uri index w).2 = w
  ∧ ((∃ payload, (getMachineAtIndex uri index w).1 = Returns payload)
     ↔ ∃ cached slot machine,
         documentsCache w !! uri = Some cached
         ∧ extractionResults cached !! index = Some slot
         ∧ machineResult slot = Some machine).
Proof.
  unfold getMachineAtIndex. step.
  destruct (documentsCache w !! uri) as [cached |] eqn:Hc; simpl.
  2: { split; [done |]. split; [by intros [? [=]] | by intros (? & ? & ? & [=] & _)]. }
  destruct (bool_decide (length (extractionResults cached) = 0)) eqn:Hlen; simpl.
  { apply bool_decide_eq_true, nil_length_inv in Hlen. split; [done |].
    split; [by intros [? [=]] |]. intros (? & slot & ? & [= <-] & Hslot & _).
    by rewrite Hlen in Hslot. }
  destruct (extractionResults cached !! index) as [slot |] eqn:Hslot; simpl.
  2: { split; [done |]. split; [by intros [? [=]] |].
       intros (? & ? & ? & [= <-] & Hs & _). by rewrite Hslot in Hs. }
  destruct (machineResult slot) as [machine |] eqn:Hm; simpl.
  - split; [done |]. split; [intros _; by exists cached, slot, machine | by eexists].
  - split; [done |]. split; [by intros [? [=]] |].
    intros (? & ? & ? & [= <-] & Hs & Hm'). rewrite Hslot in Hs. by simplify_eq.
Qed.

(** X7: a failed [applyMachineEdits] leaves the state as it was. *)
Theorem applyMachineEdits_fails_without_effect machineEdits w e w' :
  applyMachineEdits machineEdits w = (Throws e, w') -> w' = w.
Proof.
  unfold applyMachineEdits. step.
  destruct (displayedMachine w) as [d |]; [| by intros [= _ <-]]. step.
  destruct (documentsCache w !! displayed_uri d) as [cached |]; [| by intros [= _ <-]].
  step.
  destruct (extractionResults cached !! machineIndex d) as [slot |];
    [| by intros [= _ <-]].
  step.
  destruct (machineResult slot) as [machine |]; [| by intros [= _ <-]]. step.
  destruct (modify machine machineEdits) as [modified |]; [| by intros [= _ <-]]. step.
  destruct (getMachineNodesFromFile _) as [[file machineNodes] |]; [| by intros [= _ <-]].
  step.
  destruct (getMachineExtractResult _ _ _) as [extractedAgain |]; [| by intros [= _ <-]].
  by simpl.
Qed.
End MoreRequests.

Section OtherRequests.
Context `{Env} {TsTypesEdit : Type}.
Variable calleeRange : MachineExtractResult -> option Range.
Variable isCursorInPosition : option SourceLocation -> Position -> bool.
Variable stringify : Position -> string.
Variable getTsTypesEdits : list TypegenData -> list TsTypesEdit.
Implicit Types (w : World).

(** X8: after a document was closed, every request about it answers as for a
    document the server does not know. *)
Theorem closed_document_is_unknown (document : TextDocument) w index position :
  getMachineAtIndex (uri document) index (onDidClose document w).2
    = (Throws (JsError noMachines), (onDidClose document w).2)
  ∧ getMachineAtCursorPosition isCursorInPosition stringify (uri document) position
      (onDidClose document w).2
    = (Throws (JsError noMachines), (onDidClose document w).2)
  ∧ getTsTypesAndEdits getTsTypesEdits (uri document) (onDidClose document w).2
    = mkTsTypesAndEdits [] []
  ∧ onCodeLens calleeRange (uri document) (onDidClose document w).2 = [].
Proof.
  unfold getMachineAtIndex, getMachineAtCursorPosition, getTsTypesAndEdits, onCodeLens,
    onDidClose.
  step. by rewrite !lookup_delete_eq.
Qed.

Lemma cursorInMachine_machineResult position slot :
  cursorInMachine isCursorInPosition position slot = true -> is_Some (machineResult slot).
Proof. unfold cursorInMachine. destruct (machineResult slot); [eauto | done]. Qed.

(** X9: [getMachineAtCursorPosition] never changes the state.  When it answers,
    the index it reports is the first slot whose machine is under the
    cursor, and [getMachineAtIndex] gives the same answer for that index;
    when it fails, it is with one of its two messages. *)
Theorem getMachineAtCursorPosition_agrees uri position w :
  match getMachineAtCursorPosition isCursorInPosition stringify uri position w with
  | (Returns (payload, index), w') =>
      w' = w
      ∧ getMachineAtIndex uri index w = (Returns payload, w)
      ∧ ∃ cached slot,
          documentsCache w !! uri = Some cached
          ∧ extractionResults cached !! index = Some slot
          ∧ cursorInMachine isCursorInPosition position slot = true
          ∧ ∀ j earlier,
              extractionResults cached !! j = Some earlier -> j < index ->
              cursorInMachine isCursorInPosition position earlier = false
  | (Throws e, w') =>
      w' = w
      ∧ (e = JsError noMachines
         ∨ e = JsError (machineAtPositionNotFound stringify position))
  end.
Proof.
  unfold getMachineAtCursorPosition. step.
  destruct (documentsCache w !! uri) as [cached |] eqn:Hc; simpl; [| eauto].
  destruct (bool_decide (length (extractionResults cached) = 0)) eqn:Hlen; simpl; [eauto |].
  destruct (list_find _ (extractionResults cached)) as [[index found] |] eqn:Hfind;
    simpl; [| eauto].
  apply list_find_Some in Hfind as (Hslot & Hcursor & Hfirst).
  rewrite Hslot. simpl.
  destruct (cursorInMachine_machineResult _ _ Hcursor) as [machine Hm].
  rewrite Hm. simpl. split; [done |]. split.
  - by rewrite (getMachineAtIndex_found uri index w cached found machine Hc Hslot Hm).
  - exists cached, found. repeat split; try done.
    intros j earlier Hj Hlt. by apply not_true_is_false, (Hfirst j earlier).
Qed.

(** X10: every code lens of a document names the document and an index that
    [getMachineAtIndex] answers for. *)
Theorem code_lenses_resolve uri w :
  Forall (fun lens =>
            (lens_arguments lens).1 = uri
            ∧ ∃ payload,
                getMachineAtIndex uri (lens_arguments lens).2 w = (Returns payload, w))
    (onCodeLens calleeRange uri w).
Proof.
  unfold onCodeLens. destruct (documentsCache w !! uri) as [cached |] eqn:Hc; [| done].
  apply Forall_forall. intros lens Hlens.
  apply list_elem_of_In, in_concat in Hlens as (lenses & Hin & Hlens).
  apply list_elem_of_In, elem_of_lookup_imap in Hin as (index & slot & -> & Hslot).
  unfold lensesOf in Hlens.
  destruct (machineResult slot) as [machine |] eqn:Hm; simpl in Hlens; [| done].
  destruct (calleeRange machine) as [calleeLoc |]; [| done].
  assert (Hargs : lens_arguments lens = (uri, index)).
  { destruct Hlens as [<- | [<- | []]]; reflexivity. }
  rewrite Hargs. simpl. split; [done |]. eexists.
  by apply (getMachineAtIndex_found uri index w cached slot machine).
Qed.
End OtherRequests.

End ServerRequestsProofs.

(** ** Concrete runs of the other properties *)
Module MoreScenarios.
Import Js Server Fixture ServerProofs ServerRequests ServerRequestsProofs.

(** [a.ts] no longer parses while its machine is displayed. *)
Lemma extractor_throws_clears_diagnostics_witness :
  extractMachinesFromFile (getText (doc "a.ts" "u!")) = Throws (JsError "Unexpected token")
  ∧ handleDocumentChange (doc "a.ts" "u!") shown =
      (Returns tt,
       mkWorld (documentsCache shown) (displayedMachine shown)
         (sent shown ++
          (if is_displayed shown (uri (doc "a.ts" "u!"))
           then [extractionError (Some (error_message (JsError "Unexpected token")))]
           else []) ++
          [sendDiagnostics (uri (doc "a.ts" "u!")) []])%list).
Proof.
  split; [reflexivity |].
  apply (extractor_throws_clears_diagnostics (doc "a.ts" "u!") shown
           (JsError "Unexpected token")).
  reflexivity.
Defined.

(** The displayed machine becomes invalid: the pass returns early, and the
    request still answers with the new machine. *)
Lemma pass_then_getMachineAtIndex_witness :
  filterOutIgnoredMachines (machinesFrom 0 "xu") !! 0 = Some (Some (mkMachine "x" 0 noCall))
  ∧ (getMachineAtIndex (uri (doc "a.ts" "xu")) 0
       (handleDocumentChange (doc "a.ts" "xu") shown).2).1 =
      Returns (mkMachinePayload
                 (toConfig (mkMachine "x" 0 noCall) hashInlineImplementations)
                 (getLayoutComment (mkMachine "x" 0 noCall))
                 (getInlineImplementations (mkMachine "x" 0 noCall)
                    (getText (doc "a.ts" "xu")))
                 (set_from (getAllConds_named (mkMachine "x" 0 noCall)))).
Proof.
  split; [reflexivity |].
  apply (pass_then_getMachineAtIndex (doc "a.ts" "xu") shown (machinesFrom 0 "xu") tt 0
           (mkMachine "x" 0 noCall)); reflexivity.
Defined.

(** No machine is displayed. *)
Lemma applyMachineEdits_fails_without_effect_witness :
  applyMachineEdits ["t"] opened =
    (Throws (JsError "`applyMachineEdits` can only be requested when there is a displayed machine"),
     opened)
  ∧ opened = opened.
Proof.
  split; [reflexivity |].
  apply (@applyMachineEdits_fails_without_effect toy ["t"] opened
           (JsError "`applyMachineEdits` can only be requested when there is a displayed machine")
           opened).
  reflexivity.
Defined.

(** The same text arrives again for the displayed document. *)
Lemma unchanged_text_sends_only_diagnostics_witness :
  documentsCache shown !! uri (doc "a.ts" "u")
    = Some (mkCachedDocument "u" (batch (doc "a.ts" "u") (machinesFrom 0 "u")))
  ∧ displayed_resolves shown (uri (doc "a.ts" "u"))
      (batch (doc "a.ts" "u") (machinesFrom 0 "u")) = true
  ∧ emitted (handleDocumentChange (doc "a.ts" "u")) shown
    = [sendDiagnostics (uri (doc "a.ts" "u")) ["u"%char]].
Proof.
  split; [vm_compute; reflexivity |]. split; [vm_compute; reflexivity |].
  apply (unchanged_text_sends_only_diagnostics (doc "a.ts" "u") shown
           (machinesFrom 0 "u") tt ["u"%char] "u"); vm_compute; reflexivity.
Defined.

End MoreScenarios.
